(** * Engage schedule tracker: a shallow embedding

    This development embeds [src/trackers/engageScheduleTracker.js] (the rule
    compiler [createScheduleRule] and the registry operations [createSchedule]
    and [updateOrRemoveSchedule]) together with the start-up script
    [initCronJob], and settles the properties of the specification on the
    embedding.  It also embeds the month activity builders
    ([getDaysInMonth], [generateDates], [build]).

    The tracker runs on one cooperative thread: a piece of code between two
    [await]s runs without interruption, and other calls may run while an
    [async] function is suspended.  The embedding follows this: the state
    monad [M] is one uninterrupted piece, and an execution of the process is
    a sequence of such pieces. *)

From Stdlib Require Import ZArith Ascii String DecimalString Sorted.
From stdpp Require Import base option list strings.

Local Open Scope Z_scope.

(** ** JavaScript values and completions *)

(** The primitive values that flow through the rule compiler.  A number is
    either an integer (a safe integer of JavaScript, below 10^21, so that its
    decimal rendering has no exponent) or [NaN]; a string is a sequence of
    ASCII characters, so that [String.length] is the [.length] of the
    source. *)
Inductive value :=
  | VUndefined
  | VNull
  | VNaN
  | VNum (n : Z)
  | VStr (s : string).

Global Instance value_eq_dec : EqDecision value.
Proof. solve_decision. Defined.

(** The only exception the tracker can raise is the [TypeError] of a property
    read on [undefined] or [null]. *)
Inductive error := TypeError.

(** A completion is a normal return or a throw. *)
Inductive completion (A : Type) :=
  | Normal (a : A)
  | Throw (e : error).
Arguments Normal {A} a.
Arguments Throw {A} e.

(** ToBoolean. *)
Definition truthy (v : value) : bool :=
  match v with
  | VUndefined | VNull | VNaN => false
  | VNum n => negb (n =? 0)
  | VStr s => negb (String.eqb s EmptyString)
  end.

(** [a || b]. *)
Definition js_or (a b : value) : value := if truthy a then a else b.

(** ToString, as applied by a template literal. *)
Definition to_string (v : value) : string :=
  match v with
  | VUndefined => "undefined"
  | VNull => "null"
  | VNaN => "NaN"
  | VNum n => NilZero.string_of_int (Z.to_int n)
  | VStr s => s
  end.

(** [v.length]: a [TypeError] on [undefined] and [null], the number of
    characters of a string, [undefined] on a number. *)
Definition get_length (v : value) : completion value :=
  match v with
  | VUndefined | VNull => Throw TypeError
  | VStr s => Normal (VNum (Z.of_nat (String.length s)))
  | VNaN | VNum _ => Normal VUndefined
  end.

(** [a === b] on primitives ([NaN] is not equal to itself). *)
Definition strict_eq (a b : value) : bool :=
  match a, b with
  | VNaN, _ | _, VNaN => false
  | _, _ => bool_decide (a = b)
  end.

(** ** Dates and the moment library *)

(** The process environment a [Date] is read in: the wall clock ([now], in
    milliseconds since the epoch) and the local time zone adjustment at a
    given instant (milliseconds, it varies with daylight saving). *)
Record Clock := { now : Z; LocalTZA : Z -> Z }.

(** The [time] field of a descriptor: absent, [null], or a [Date] object whose
    time value is a number of milliseconds, [None] for an Invalid Date. *)
Inductive time_field :=
  | TUndefined
  | TNull
  | TDate (tv : option Z).

(** Objects are truthy, an Invalid Date included. *)
Definition time_truthy (t : time_field) : bool :=
  match t with
  | TUndefined | TNull => false
  | TDate _ => true
  end.

(** A moment object is valid at an instant, or invalid. *)
Inductive Moment :=
  | MValid (t : Z)
  | MInvalid.

(** [moment(input)] of the moment library (an external dependency, taken with
    its documented behaviour): an [undefined] input is treated as no input,
    so [moment(undefined)] is [moment()], the current instant; [moment(null)]
    is an invalid moment; a [Date] is cloned, and an Invalid Date gives an
    invalid moment.  Strings and numbers in [time] are outside the data model
    of the descriptor and are not represented. *)
Definition moment (c : Clock) (input : time_field) : Moment :=
  match input with
  | TUndefined => MValid (now c)
  | TNull => MInvalid
  | TDate (Some t) => MValid t
  | TDate None => MInvalid
  end.

Definition msPerMinute : Z := 60000.
Definition msPerHour : Z := 3600000.

(** [m.hour()] and [m.minute()]: [Date.prototype.getHours] and [getMinutes] of
    the wrapped date in local time, [NaN] on an invalid moment. *)
Definition hour (c : Clock) (m : Moment) : value :=
  match m with
  | MValid t => VNum (((t + LocalTZA c t) / msPerHour) mod 24)
  | MInvalid => VNaN
  end.

Definition minute (c : Clock) (m : Moment) : value :=
  match m with
  | MValid t => VNum (((t + LocalTZA c t) / msPerMinute) mod 60)
  | MInvalid => VNaN
  end.

(** ** The rule compiler *)

(** The recurrence descriptor [scheduleDate] of a message. *)
Record ScheduleDate := {
  type : value;
  month : value;
  day : value;
  time : time_field
}.

Definition wildcard : value := VStr "*".

(** [createScheduleRule(scheduleDate)]; [None] is an absent ([undefined] or
    [null]) descriptor. *)
Definition createScheduleRule (c : Clock) (scheduleDate : option ScheduleDate)
  : completion string :=
  match scheduleDate with
  | None => Normal "* 45 23 * "
  | Some sd =>
    if negb (truthy (type sd)) && negb (time_truthy (time sd))
    then Normal "* 45 23 * "
    else
      let time := moment c (time sd) in
      let hour := js_or (hour c time) wildcard in
      let minute := js_or (minute c time) wildcard in
      let month := js_or (month sd) wildcard in
      match get_length (type sd) with
      | Throw e => Throw e
      | Normal len =>
        let dayOfWeek :=
          if strict_eq len (VNum 1) then js_or (type sd) wildcard else wildcard in
        let day :=
          if strict_eq (type sd) (VStr "month") || strict_eq (type sd) (VStr "year")
          then js_or (day sd) wildcard else wildcard in
        Normal (to_string minute +:+ " " +:+ to_string hour +:+ " " +:+
                to_string day +:+ " " +:+ to_string month +:+ " " +:+
                to_string dayOfWeek)
      end
  end.

(** The fields of a cron expression: [s.split(' ')]. *)
Fixpoint cron_fields (s : string) : list string :=
  match s with
  | EmptyString => [EmptyString]
  | String ch rest =>
    if Ascii.eqb ch " "%char then EmptyString :: cron_fields rest
    else match cron_fields rest with
         | f :: fs => String ch f :: fs
         | [] => [String ch EmptyString]
         end
  end.

(** ** The registry and its collaborators *)

(** An engage message of the store, with the fields the tracker and the
    start-up query read. *)
Record Message := {
  _id : string;
  kind : string;
  isLive : bool;
  scheduleDate : option ScheduleDate
}.

(** A job of the scheduling runtime: [schedule.scheduleJob(rule, callback)]
    returns a handle; the callback of the tracker is [send(message)], kept
    here as the message it closes over. *)
Record Job := {
  handle : nat;
  rule : string;
  payload : Message
}.

(** An element of [ENGAGE_SCHEDULES].  Its [job] is whatever
    [schedule.scheduleJob] returned: a job, or [None] for the [null] the
    runtime returns when it cannot schedule the rule. *)
Record ScheduleEntry := {
  id : string;
  job : option Job
}.

(** The mutable state of the process: the module-level array
    [ENGAGE_SCHEDULES], the jobs handed out by the scheduling runtime (in
    creation order), and the handles [cancel()] was called on. *)
Record World := {
  ENGAGE_SCHEDULES : list ScheduleEntry;
  scheduled : list Job;
  cancelled : list nat
}.

(** What an operation reads from outside the process state: the clock, the
    [EngageMessages] collection at the time of the call, and the rules the
    scheduling runtime can schedule (its cron parser, which is not part of
    the sources and is taken as a parameter). *)
Record Env := {
  clock : Clock;
  EngageMessages : list Message;
  accepts : string -> bool
}.

(** Stateful code that may throw: the state reached when an exception is
    raised is kept, as nothing in the tracker rolls back. *)
Definition M (A : Type) : Type := World -> completion A * World.

Global Instance M_ret : MRet M := fun A a w => (Normal a, w).
Global Instance M_bind : MBind M := fun A B k m w =>
  match m w with
  | (Normal a, w') => k a w'
  | (Throw e, w') => (Throw e, w')
  end.

Definition throw {A} (e : error) : M A := fun w => (Throw e, w).

Definition lift {A} (r : completion A) : M A := fun w => (r, w).

(** Modelled from the spec: the scheduling runtime, an external collaborator
    with the contract [scheduleRecurring(cronExpression, callback) -> JobHandle].
    It stands for [schedule.scheduleJob(rule, () => send(message))]: for a
    rule the runtime accepts the call hands out a new handle, for any other
    rule it hands out nothing and returns [null]. *)
Definition scheduleJob (env : Env) (r : string) (message : Message) : M (option Job) :=
  fun w =>
    if accepts env r then
      let j := {| handle := length (scheduled w); rule := r; payload := message |} in
      (Normal (Some j), {| ENGAGE_SCHEDULES := ENGAGE_SCHEDULES w;
                          scheduled := scheduled w ++ [j];
                          cancelled := cancelled w |})
    else (Normal None, w).

(** Modelled from the spec: [JobHandle.cancel() -> void], the [job.cancel()]
    of the source; it records the handle as cancelled.  On the [null] stored
    for a rule the runtime did not accept, the method call is a
    [TypeError]. *)
Definition cancel (j : option Job) : M unit :=
  match j with
  | None => throw TypeError
  | Some j => fun w =>
    (Normal tt, {| ENGAGE_SCHEDULES := ENGAGE_SCHEDULES w;
                  scheduled := scheduled w;
                  cancelled := cancelled w ++ [handle j] |})
  end.

(** [ENGAGE_SCHEDULES.push(entry)]. *)
Definition push (entry : ScheduleEntry) : M unit := fun w =>
  (Normal tt, {| ENGAGE_SCHEDULES := ENGAGE_SCHEDULES w ++ [entry];
                scheduled := scheduled w;
                cancelled := cancelled w |}).

(** [ENGAGE_SCHEDULES.splice(index, 1)]. *)
Definition splice (index : nat) : M unit := fun w =>
  (Normal tt, {| ENGAGE_SCHEDULES := delete index (ENGAGE_SCHEDULES w);
                scheduled := scheduled w;
                cancelled := cancelled w |}).

(** [ENGAGE_SCHEDULES.findIndex(engage => engage.id === _id)], with the
    element found; [None] is the index [-1]. *)
Definition findIndex (q : string) : M (option (nat * ScheduleEntry)) := fun w =>
  (Normal (list_find (fun engage => id engage = q) (ENGAGE_SCHEDULES w)), w).

(** Modelled from the spec: the message store, with the contract
    [findOne({_id}) -> Message | null].  It stands for
    [EngageMessages.findOne({ _id })]: the first document with that id, or
    [None] for [null]. *)
Definition findOne (store : list Message) (q : string) : option Message :=
  snd <$> list_find (fun m => _id m = q) store.

(** Modelled from the spec: the message store, with the contract
    [find({kind, isLive}) -> Message[]].  It stands for
    [EngageMessages.find({ kind: { $in: ['auto', 'visitorAuto'] }, isLive: true })]:
    the documents of the store that match, in store order. *)
Definition find_live (store : list Message) : list Message :=
  filter (fun m => (kind m = "auto" \/ kind m = "visitorAuto") /\ isLive m = true) store.

(** [createSchedule(message)]; [None] is the [null] of a [findOne] that found
    nothing, on which the destructuring of [scheduleDate] throws.  The body
    has no [await]: it runs in one piece. *)
Definition createSchedule (env : Env) (message : option Message) : M unit :=
  match message with
  | None => throw TypeError
  | Some msg =>
    r ← lift (createScheduleRule (clock env) (scheduleDate msg));
    j ← scheduleJob env r msg;
    push {| id := _id msg; job := j |}
  end.

(** [updateOrRemoveSchedule({ _id }, update)] up to the [await] of line 82:
    the lookup, the [cancel] and the [splice] run in one piece when the
    function is called.  The result tells whether the call is then suspended
    at the [await] ([true]) or has returned ([false]). *)
Definition updateOrRemoveSchedule_start (q : string) (update : bool) : M bool :=
  selected ← findIndex q;
  match selected with
  | None => mret false
  | Some (selectedIndex, entry) =>
    cancel (job entry);;
    splice selectedIndex;;
    if negb update then mret false else mret true
  end.

(** The rest of [updateOrRemoveSchedule], run when the [await] resumes with
    the message read from the store: [return createSchedule(message)]. *)
Definition updateOrRemoveSchedule_resume (env : Env) (q : string) : M unit :=
  createSchedule env (findOne (EngageMessages env) q).

(** [updateOrRemoveSchedule({ _id }, update)] run to completion with no other
    call of the tracker between its [await] and its resumption, as when the
    caller awaits it. *)
Definition updateOrRemoveSchedule (env : Env) (q : string) (update : bool) : M unit :=
  suspended ← updateOrRemoveSchedule_start q update;
  if (suspended : bool) then updateOrRemoveSchedule_resume env q else mret tt.

(** [for (let x of xs) { body(x) }]: an exception leaves the loop. *)
Fixpoint for_of {A} (xs : list A) (body : A -> M unit) : M unit :=
  match xs with
  | [] => mret tt
  | x :: rest => body x;; for_of rest body
  end.

(** [initCronJob()], run once when the process starts: the loop that follows
    the [await] of the query, on the messages the query returned. *)
Definition initCronJob (env : Env) : M unit :=
  let messages := find_live (EngageMessages env) in
  for_of messages (fun message => createSchedule env (Some message)).

Definition empty_world : World :=
  {| ENGAGE_SCHEDULES := []; scheduled := []; cancelled := [] |}.

(** A clock in UTC that reads [t]. *)
Definition utc (t : Z) : Clock := {| now := t; LocalTZA := fun _ => 0 |}.

(** A descriptor with nothing but a [time]. *)
Definition time_only (tv : option Z) : ScheduleDate :=
  {| type := VUndefined; month := VUndefined; day := VUndefined; time := TDate tv |}.

(** A string without a space is one cron field. *)
Fixpoint no_space (s : string) : bool :=
  match s with
  | EmptyString => true
  | String ch rest => negb (Ascii.eqb ch " "%char) && no_space rest
  end.

(** 10:30 on the first day of the epoch, in milliseconds. *)
Definition half_past_ten : Z := 10 * msPerHour + 30 * msPerMinute.

(** Midnight of 1 January 2024, in milliseconds. *)
Definition new_year_2024 : Z := 1704067200000.

(** ** Steps of the tracker *)

(** The ids of the registry, in order. *)
Definition ids (w : World) : list string := id <$> ENGAGE_SCHEDULES w.

(** The invariant of the specification: at most one entry per message id. *)
Definition unique_ids (w : World) : Prop := NoDup (ids w).

(** The entries of the registry for one id. *)
Definition entries_for (q : string) (w : World) : list ScheduleEntry :=
  filter (fun engage => id engage = q) (ENGAGE_SCHEDULES w).

(** The pieces of the tracker that run without interruption: a call of
    [createSchedule], the part of [updateOrRemoveSchedule] before its
    [await], the part after it, and the loop of the bootstrap.  An execution
    of the process is a sequence of such steps: between the start of an
    update and its resumption any other step may run. *)
Inductive step :=
  | CreateSchedule (message : option Message)
  | UpdateOrRemoveStart (q : string) (update : bool)
  | UpdateOrRemoveResume (q : string)
  | InitCronJob.

Definition run_step (env : Env) (k : step) : M unit :=
  match k with
  | CreateSchedule message => createSchedule env message
  | UpdateOrRemoveStart q update => updateOrRemoveSchedule_start q update;; mret tt
  | UpdateOrRemoveResume q => updateOrRemoveSchedule_resume env q
  | InitCronJob => initCronJob env
  end.

(** A step that does not register a message that already has an entry:
    [createSchedule], called directly or by a resuming update, on an id
    without entry; the bootstrap on messages with distinct ids that have no
    entry; the start of an update always. *)
Definition registers_new (env : Env) (w : World) (k : step) : Prop :=
  match k with
  | CreateSchedule (Some msg) => _id msg ∉ ids w
  | CreateSchedule None => True
  | UpdateOrRemoveStart _ _ => True
  | UpdateOrRemoveResume q =>
    forall msg, findOne (EngageMessages env) q = Some msg -> _id msg ∉ ids w
  | InitCronJob =>
    NoDup (_id <$> find_live (EngageMessages env)) /\
    forall m, m ∈ find_live (EngageMessages env) -> _id m ∉ ids w
  end.

(** A sequence of steps, each in the environment of its time and each
    registering new ids only; a step that throws leaves the state it reached
    and the next step goes on from it. *)
Inductive runs_new : World -> list (Env * step) -> World -> Prop :=
  | runs_new_nil w : runs_new w [] w
  | runs_new_cons w env k rest w' :
      registers_new env w k ->
      runs_new (snd (run_step env k w)) rest w' ->
      runs_new w ((env, k) :: rest) w'.

(** Any sequence of steps. *)
Fixpoint run_all (w : World) (steps : list (Env * step)) : World :=
  match steps with
  | [] => w
  | (env, k) :: rest => run_all (snd (run_step env k w)) rest
  end.

(** The jobs of the runtime that were not cancelled, in creation order. *)
Definition live_jobs (w : World) : list Job :=
  filter (fun j => handle j ∉ cancelled w) (scheduled w).

(** The registry tracks the runtime: the jobs its entries hold are the jobs
    that still fire, and the handle of a job is its position in the
    runtime's table. *)
Definition tracks_live (w : World) : Prop :=
  omap job (ENGAGE_SCHEDULES w) = live_jobs w /\
  (forall i j, scheduled w !! i = Some j -> handle j = i) /\
  (forall h, h ∈ cancelled w -> (h < length (scheduled w))%nat).


(** ** A sample runtime, concrete messages and stores *)

Definition digit_value (ch : ascii) : option Z :=
  let n := Z.of_N (N_of_ascii ch) in
  if (48 <=? n) && (n <=? 57) then Some (n - 48) else None.

Fixpoint number_value (acc : Z) (s : string) : option Z :=
  match s with
  | EmptyString => Some acc
  | String ch rest =>
    match digit_value ch with
    | Some d => number_value (10 * acc + d) rest
    | None => None
    end
  end.

Definition field_in_range (lo hi : Z) (f : string) : bool :=
  match f with
  | EmptyString => false
  | _ =>
    String.eqb f "*" ||
    match number_value 0 f with
    | Some n => (lo <=? n) && (n <=? hi)
    | None => false
    end
  end.

(** The rules used in the concrete instances below are decided by this
    sample of the runtime's parser: five fields, each the wildcard or a
    number in the range of the field.  The parser of the runtime accepts
    more (lists, ranges, steps, names, a leading field of seconds); the
    theorems are stated for every parser. *)
Definition five_field_rule (r : string) : bool :=
  match cron_fields r with
  | [mi; ho; d; mo; dow] =>
    field_in_range 0 59 mi && field_in_range 0 23 ho && field_in_range 1 31 d &&
    field_in_range 1 12 mo && field_in_range 0 7 dow
  | _ => false
  end.

Definition msg_default : Message :=
  {| _id := "m1"; kind := "auto"; isLive := true; scheduleDate := None |}.

Definition msg_weekly : Message :=
  {| _id := "m1"; kind := "auto"; isLive := true;
     scheduleDate := Some {| type := VStr "3"; month := VUndefined;
                             day := VUndefined;
                             time := TDate (Some half_past_ten) |} |}.

Definition msg_time_only : Message :=
  {| _id := "m1"; kind := "auto"; isLive := true;
     scheduleDate := Some (time_only (Some half_past_ten)) |}.

Definition msg_other : Message :=
  {| _id := "m2"; kind := "visitorAuto"; isLive := true; scheduleDate := None |}.

Definition msg_monthly : Message :=
  {| _id := "m2"; kind := "visitorAuto"; isLive := true;
     scheduleDate := Some {| type := VStr "month"; month := VUndefined;
                             day := VNum 15;
                             time := TDate (Some half_past_ten) |} |}.

Definition msg_rescheduled : Message :=
  {| _id := "m1"; kind := "auto"; isLive := true;
     scheduleDate := Some {| type := VStr "month"; month := VUndefined;
                             day := VNum 15;
                             time := TDate (Some half_past_ten) |} |}.

Definition msg_manual : Message :=
  {| _id := "m3"; kind := "manual"; isLive := true; scheduleDate := None |}.

Definition env_of (store : list Message) : Env :=
  {| clock := utc 0; EngageMessages := store; accepts := five_field_rule |}.

(** The world after [createSchedule(msg_default)] in a fresh process: the
    fallback rule is not accepted, the entry holds [null]. *)
Definition world_one : World :=
  snd (createSchedule (env_of [msg_default]) (Some msg_default) empty_world).

(** The world after two calls of [createSchedule(msg_default)]. *)
Definition world_twice : World :=
  snd (createSchedule (env_of [msg_default]) (Some msg_default) world_one).

(** The world after [createSchedule(msg_weekly)] in a fresh process: the
    entry holds a job. *)
Definition world_weekly : World :=
  snd (createSchedule (env_of [msg_weekly]) (Some msg_weekly) empty_world).

(** The world after two calls of [createSchedule(msg_weekly)]. *)
Definition world_weekly_twice : World :=
  snd (createSchedule (env_of [msg_weekly]) (Some msg_weekly) world_weekly).

(** ** Month activity builders *)

Module MonthActivity.

(** *** Calendar arithmetic of ECMAScript dates *)

Definition msPerDay : Z := 86400000.

Definition Day (t : Z) : Z := t / msPerDay.

Definition DaysInYear (y : Z) : Z :=
  if negb (y mod 4 =? 0) then 365
  else if negb (y mod 100 =? 0) then 366
  else if negb (y mod 400 =? 0) then 365
  else 366.

Definition DayFromYear (y : Z) : Z :=
  365 * (y - 1970) + (y - 1969) / 4 - (y - 1901) / 100 + (y - 1601) / 400.

(** The year of a day number: the largest [y] with [DayFromYear y <= d],
    found among the three years around the mean-year estimate. *)
Definition YearFromDay (d : Z) : Z :=
  let g := 1970 + (400 * d) / 146097 in
  if DayFromYear (g + 1) <=? d then g + 1
  else if DayFromYear g <=? d then g
  else g - 1.

Definition YearFromTime (t : Z) : Z := YearFromDay (Day t).

(** [InLeapYear], as the number 0 or 1. *)
Definition InLeapYear (t : Z) : Z :=
  if DaysInYear (YearFromTime t) =? 366 then 1 else 0.

Definition DayWithinYear (t : Z) : Z := Day t - DayFromYear (YearFromTime t).

Definition MonthFromTime (t : Z) : Z :=
  let d := DayWithinYear t in
  let leap := InLeapYear t in
  if d <? 31 then 0
  else if d <? 59 + leap then 1
  else if d <? 90 + leap then 2
  else if d <? 120 + leap then 3
  else if d <? 151 + leap then 4
  else if d <? 181 + leap then 5
  else if d <? 212 + leap then 6
  else if d <? 243 + leap then 7
  else if d <? 273 + leap then 8
  else if d <? 304 + leap then 9
  else if d <? 334 + leap then 10
  else 11.

Definition DateFromTime (t : Z) : Z :=
  let d := DayWithinYear t in
  let leap := InLeapYear t in
  match MonthFromTime t with
  | 0 => d + 1
  | 1 => d - 30
  | 2 => d - 58 - leap
  | 3 => d - 89 - leap
  | 4 => d - 119 - leap
  | 5 => d - 150 - leap
  | 6 => d - 180 - leap
  | 7 => d - 211 - leap
  | 8 => d - 242 - leap
  | 9 => d - 272 - leap
  | 10 => d - 303 - leap
  | _ => d - 333 - leap
  end.

(** The day within the year [ym] of the first day of month [mn]. *)
Definition month_start (ym mn : Z) : Z :=
  let leap := if DaysInYear ym =? 366 then 1 else 0 in
  match mn with
  | 0 => 0
  | 1 => 31
  | 2 => 59 + leap
  | 3 => 90 + leap
  | 4 => 120 + leap
  | 5 => 151 + leap
  | 6 => 181 + leap
  | 7 => 212 + leap
  | 8 => 243 + leap
  | 9 => 273 + leap
  | 10 => 304 + leap
  | _ => 334 + leap
  end.

(** [MakeDay(year, month, date)]: the day number of the first day of the
    month, [month] carried into the year, plus [date - 1]. *)
Definition MakeDay (year month date : Z) : Z :=
  let ym := year + month / 12 in
  let mn := month mod 12 in
  DayFromYear ym + month_start ym mn + date - 1.

Definition MakeDate (day time : Z) : Z := day * msPerDay + time.

(** [TimeClip]: [None] is [NaN], the time value of an Invalid Date. *)
Definition TimeClip (t : Z) : option Z :=
  if Z.abs t >? 8640000000000000 then None else Some t.

(** *** Date objects in the local time zone *)

(** The time zone of the process: the clock, whose [LocalTZA] is the offset
    in effect at a UTC instant, and the offset found for a local time, the
    [LocalTZA(t, false)] of the language specification. *)
Record LocalZone := { zone_clock : Clock; LocalTZA_of_local : Z -> Z }.

Definition LocalTime (z : LocalZone) (t : Z) : Z := t + LocalTZA (zone_clock z) t.

Definition UTC (z : LocalZone) (t : Z) : Z := t - LocalTZA_of_local z t.

(** [new Date(year, month, date)], with [date] a number or [None] for
    [NaN]: a year from 0 to 99 counts from 1900. *)
Definition new_Date (z : LocalZone) (year month : Z) (date : option Z) : option Z :=
  match date with
  | None => None
  | Some dt =>
    let yr := if (0 <=? year) && (year <=? 99) then 1900 + year else year in
    TimeClip (UTC z (MakeDate (MakeDay yr month dt) 0))
  end.

(** [d.getFullYear()], [d.getMonth()], [d.getDate()]: [None] is [NaN]. *)
Definition getFullYear (z : LocalZone) (d : option Z) : option Z :=
  t ← d; Some (YearFromTime (LocalTime z t)).

Definition getMonth (z : LocalZone) (d : option Z) : option Z :=
  t ← d; Some (MonthFromTime (LocalTime z t)).

Definition getDate (z : LocalZone) (d : option Z) : option Z :=
  t ← d; Some (DateFromTime (LocalTime z t)).

(** *** The builders *)

Record YearMonth := { year : Z; month : Z }.

Record Interval := { start : option Z; end_ : option Z }.

Record MonthInterval := { yearMonth : YearMonth; interval : Interval }.

(** [START_DATE]. *)
Definition START_DATE : YearMonth := {| year := 2017; month := 0 |}.

(** [getDaysInMonth(year, month)]. *)
Definition getDaysInMonth (z : LocalZone) (year month : Z) : option Z :=
  getDate z (new_Date z year month (Some 0)).

(** The object [generateDates] pushes for a month. *)
Definition month_interval (z : LocalZone) (year month : Z) : MonthInterval :=
  {| yearMonth := {| year := year; month := month |};
     interval :=
       {| start := new_Date z year month (Some 1);
          end_ := new_Date z year month (getDaysInMonth z year month) |} |}.

(** The [for] loop of [generateDates], from the current values of [year] and
    [month]: the test, the body with its [push], the wrap of the month at
    the end of the body and the [month++] of the loop header.  [fuel]
    bounds the number of iterations. *)
Fixpoint generateDates_loop (fuel : nat) (z : LocalZone)
    (endYear endMonth year month : Z) : list MonthInterval :=
  match fuel with
  | O => []
  | S fuel' =>
    if (year <? endYear) || ((year =? endYear) && (month <=? endMonth)) then
      month_interval z year month
      :: (if Z.rem (month + 1) 12 =? 0
          then generateDates_loop fuel' z endYear endMonth (year + 1) (0 + 1)
          else generateDates_loop fuel' z endYear endMonth year (month + 1))
    else []
  end.

(** [generateDates()]: [now] is a valid date, so its year and month are
    numbers.  The loop runs at most once per month from the start date to
    the current month. *)
Definition generateDates (z : LocalZone) : list MonthInterval :=
  let now := now (zone_clock z) in
  let endYear := YearFromTime (LocalTime z now) in
  let endMonth := MonthFromTime (LocalTime z now) in
  generateDates_loop
    (Z.to_nat (12 * (endYear - year START_DATE) + endMonth - month START_DATE + 1))
    z endYear endMonth (year START_DATE) (month START_DATE).

(** The content types of the builders, [COC_CONTENT_TYPES.CUSTOMER] and
    [COC_CONTENT_TYPES.COMPANY] of the constants module. *)
Inductive ContentType := CUSTOMER | COMPANY.

(** A builder object: [this.coc], and [this.cocContentType], which the base
    class leaves [undefined]. *)
Record Builder (Coc : Type) := {
  this_coc : Coc;
  this_cocContentType : option ContentType
}.
Arguments this_coc {Coc} _.
Arguments this_cocContentType {Coc} _.

Record ActivityLogForMonth (Coc : Type) := {
  coc : Coc;
  cocContentType : option ContentType;
  date : MonthInterval
}.
Arguments coc {Coc} _.
Arguments cocContentType {Coc} _.
Arguments date {Coc} _.

Definition BaseMonthActivityBuilder {Coc} (c : Coc) : Builder Coc :=
  {| this_coc := c; this_cocContentType := None |}.

Definition CustomerMonthActivityLogBuilder {Coc} (c : Coc) : Builder Coc :=
  {| this_coc := c; this_cocContentType := Some CUSTOMER |}.

Definition CompanyMonthActivityLogBuilder {Coc} (c : Coc) : Builder Coc :=
  {| this_coc := c; this_cocContentType := Some COMPANY |}.

(** [build()]: every month is put at the front of the list. *)
Definition build {Coc} (z : LocalZone) (this : Builder Coc)
  : list (ActivityLogForMonth Coc) :=
  let dates := generateDates z in
  fold_left
    (fun list date =>
       {| coc := this_coc this;
          cocContentType := this_cocContentType this;
          date := date |} :: list)
    dates [].

(** A zone without gaps: the offset found for a local time is the offset in
    effect at the instant it denotes, and offsets are below one day. *)
Definition regular (z : LocalZone) : Prop :=
  forall t,
    LocalTZA (zone_clock z) (UTC z t) = LocalTZA_of_local z t /\
    Z.abs (LocalTZA_of_local z t) <= msPerDay.

(** The number of days of month [mn] (0 to 11) of year [y]. *)
Definition DaysInMonth (y mn : Z) : Z :=
  match mn with
  | 1 => if DaysInYear y =? 366 then 29 else 28
  | 3 | 5 | 8 | 10 => 30
  | _ => 31
  end.

(** The months the loop of [generateDates] is to produce from the state
    [(y0, m0)]: up to the end month, and from the second month on in every
    year after [y0]. *)
Definition produced_from (endYear endMonth y0 m0 y m : Z) : Prop :=
  y0 <= y <= endYear /\ 0 <= m <= 11 /\
  (y = endYear -> m <= endMonth) /\
  (y = y0 -> m0 <= m) /\ (y0 < y -> 1 <= m).

(** Their number. *)
Definition produced_count (endYear endMonth y0 m0 : Z) : Z :=
  if y0 <? endYear then (12 - m0) + 11 * (endYear - y0 - 1) + endMonth
  else if y0 =? endYear then Z.max 0 (endMonth - m0 + 1)
  else 0.

Definition utc_zone (t : Z) : LocalZone :=
  {| zone_clock := utc t; LocalTZA_of_local := fun _ => 0 |}.

End MonthActivity.

(** * The rule compiler: properties *)

Section RuleCompiler.

Variable c : Clock.

Lemma cron_fields_cons (f rest : string) :
  no_space f = true ->
  cron_fields (f +:+ " " +:+ rest) = f :: cron_fields rest.
Proof.
  induction f as [|ch f IH]; simpl; [done|].
  intros [Hch Hf]%andb_prop. rewrite negb_true_iff in Hch.
  rewrite Hch. simpl in IH. by rewrite (IH Hf).
Qed.

Lemma hour_range (m : Moment) :
  hour c m = VNaN \/ exists k, hour c m = VNum k /\ 0 <= k < 24.
Proof.
  destruct m as [t|]; [right|by left]. eexists; split; [done|].
  apply Z.mod_pos_bound. lia.
Qed.

Lemma minute_range (m : Moment) :
  minute c m = VNaN \/ exists k, minute c m = VNum k /\ 0 <= k < 60.
Proof.
  destruct m as [t|]; [right|by left]. eexists; split; [done|].
  apply Z.mod_pos_bound. lia.
Qed.

Lemma small_number_no_space (k : Z) :
  0 <= k < 60 -> no_space (to_string (js_or (VNum k) wildcard)) = true.
Proof.
  intros Hk. assert (exists n, k = Z.of_nat n /\ (n < 60)%nat) as (n & -> & Hn).
  { exists (Z.to_nat k). lia. }
  clear Hk. do 60 (destruct n as [|n]; [reflexivity|]). lia.
Qed.

Lemma hour_field_no_space (m : Moment) :
  no_space (to_string (js_or (hour c m) wildcard)) = true.
Proof.
  destruct (hour_range m) as [->|(k & -> & Hk)]; [done|].
  apply small_number_no_space. lia.
Qed.

Lemma minute_field_no_space (m : Moment) :
  no_space (to_string (js_or (minute c m) wildcard)) = true.
Proof.
  destruct (minute_range m) as [->|(k & -> & Hk)]; [done|].
  by apply small_number_no_space.
Qed.

(** On the extraction path with a [type] that has a [length] to read, the
    compiler returns the five fields joined by single spaces. *)
Lemma createScheduleRule_extracted (sd : ScheduleDate) :
  type sd <> VUndefined -> type sd <> VNull ->
  truthy (type sd) = true \/ time_truthy (time sd) = true ->
  exists rest,
    createScheduleRule c (Some sd) =
      Normal (to_string (js_or (minute c (moment c (time sd))) wildcard) +:+ " " +:+
              to_string (js_or (hour c (moment c (time sd))) wildcard) +:+ " " +:+ rest).
Proof.
  intros Hu Hn Hguard. unfold createScheduleRule.
  assert (negb (truthy (type sd)) && negb (time_truthy (time sd)) = false) as ->.
  { destruct Hguard as [-> | ->]; simpl; [done|apply andb_false_r]. }
  destruct (type sd) eqn:Ht; try done; simpl; eauto.
Qed.

Lemma extracted_fields (mi ho rest : string) :
  no_space mi = true -> no_space ho = true ->
  cron_fields (mi +:+ " " +:+ ho +:+ " " +:+ rest) !! 0%nat = Some mi /\
  cron_fields (mi +:+ " " +:+ ho +:+ " " +:+ rest) !! 1%nat = Some ho.
Proof.
  intros Hmi Hho. rewrite (cron_fields_cons mi) by done.
  rewrite (cron_fields_cons ho) by done. done.
Qed.

(** C1: [createScheduleRule] is not total: on every descriptor with a [time]
    and no [type] the read of [scheduleDate.type.length] throws a
    [TypeError], whatever the clock and the other fields. *)
Theorem createScheduleRule_time_without_type_throws (tv : option Z) (mo d : value) :
  createScheduleRule c
    (Some {| type := VUndefined; month := mo; day := d; time := TDate tv |})
  = Throw TypeError.
Proof. reflexivity. Qed.

(** C2: on a descriptor with a [time] and [type], [month] and [day] unset, the
    compiler throws instead of returning the minute and the hour followed by
    three wildcards. *)
Theorem createScheduleRule_time_only_throws (t : Z) :
  createScheduleRule c (Some (time_only (Some t))) = Throw TypeError /\
  createScheduleRule c (Some (time_only (Some t))) <>
    Normal (to_string (minute c (MValid t)) +:+ " " +:+
            to_string (hour c (MValid t)) +:+ " * * *").
Proof. split; [reflexivity|discriminate]. Qed.

(** The statement of C2 holds when [type] is the empty string instead of
    being absent. *)
Lemma createScheduleRule_time_and_empty_type (t h m : Z) :
  hour c (MValid t) = VNum h -> minute c (MValid t) = VNum m ->
  h > 0 -> m > 0 ->
  createScheduleRule c
    (Some {| type := VStr EmptyString; month := VUndefined; day := VUndefined;
             time := TDate (Some t) |})
  = Normal (to_string (VNum m) +:+ " " +:+ to_string (VNum h) +:+ " * * *").
Proof.
  intros Hh Hm Hhpos Hmpos. unfold createScheduleRule. simpl negb. simpl andb.
  cbv iota. simpl moment. rewrite Hh, Hm. unfold js_or at 1 2.
  simpl truthy.
  assert (negb (h =? 0) = true) as -> by (apply negb_true_iff; lia).
  assert (negb (m =? 0) = true) as -> by (apply negb_true_iff; lia).
  reflexivity.
Qed.

(** For every descriptor that passes the fallback test, the expression the
    compiler returns, if it returns one, has the wildcard in the hour field
    when the extracted hour is zero and the wildcard in the minute field when
    the extracted minute is zero; and the compiler does return an expression
    whenever [type] is neither [undefined] nor [null]. *)
Theorem zero_hour_minute_coerced_to_wildcard (sd : ScheduleDate) :
  truthy (type sd) = true \/ time_truthy (time sd) = true ->
  (forall s,
     createScheduleRule c (Some sd) = Normal s ->
     (hour c (moment c (time sd)) = VNum 0 -> cron_fields s !! 1%nat = Some "*") /\
     (minute c (moment c (time sd)) = VNum 0 -> cron_fields s !! 0%nat = Some "*")) /\
  (type sd <> VUndefined -> type sd <> VNull ->
   exists s, createScheduleRule c (Some sd) = Normal s).
Proof.
  intros Hguard. split.
  - intros s Hs.
    assert (type sd <> VUndefined /\ type sd <> VNull) as [Hu Hn].
    { revert Hs. unfold createScheduleRule.
      destruct (negb (truthy (type sd)) && negb (time_truthy (time sd))) eqn:Hfb.
      - apply andb_prop in Hfb as [Ht Hti]. rewrite negb_true_iff in Ht, Hti.
        destruct Hguard; congruence.
      - destruct (type sd); simpl; try discriminate; done. }
    destruct (createScheduleRule_extracted sd Hu Hn Hguard) as [rest Hrest].
    rewrite Hrest in Hs. injection Hs as <-.
    pose proof (extracted_fields _ _ rest
      (minute_field_no_space (moment c (time sd)))
      (hour_field_no_space (moment c (time sd)))) as [H0 H1].
    split; intros Hz.
    + rewrite H1, Hz. done.
    + rewrite H0, Hz. done.
  - intros Hu Hn.
    destruct (createScheduleRule_extracted sd Hu Hn Hguard) as [rest Hrest]. eauto.
Qed.

(** When the [time] field is [null], the minute and hour fields are both
    the wildcard. *)
Lemma null_time_gives_wildcards (sd : ScheduleDate) :
  type sd <> VUndefined -> type sd <> VNull ->
  truthy (type sd) = true -> time sd = TNull ->
  exists s,
    createScheduleRule c (Some sd) = Normal s /\
    cron_fields s !! 0%nat = Some "*" /\ cron_fields s !! 1%nat = Some "*".
Proof.
  intros Hu Hn Ht Htime.
  destruct (createScheduleRule_extracted sd Hu Hn (or_introl Ht)) as [rest Hrest].
  rewrite Htime in Hrest. eexists; split; [exact Hrest|].
  by apply extracted_fields.
Qed.

(** When the [time] field is absent the compiler reads the clock: the result
    is that of the same descriptor with [time] set to the current instant. *)
Lemma absent_time_reads_clock (ty mo d : value) :
  truthy ty = true ->
  createScheduleRule c (Some {| type := ty; month := mo; day := d; time := TUndefined |}) =
  createScheduleRule c (Some {| type := ty; month := mo; day := d; time := TDate (Some (now c)) |}).
Proof. intros Ht. unfold createScheduleRule. simpl. by rewrite Ht. Qed.

End RuleCompiler.

(** C4: with [type] set and [time] absent, at 10:30 the minute and hour
    fields of the compiled expression are [30] and [10], not wildcards. *)
Theorem absent_time_compiles_current_time :
  createScheduleRule (utc half_past_ten)
    (Some {| type := VStr "3"; month := VUndefined; day := VUndefined;
             time := TUndefined |})
  = Normal "30 10 * * 3" /\
  cron_fields "30 10 * * 3" !! 0%nat = Some "30" /\
  cron_fields "30 10 * * 3" !! 1%nat = Some "10".
Proof. vm_compute. done. Qed.

(** Midnight on a weekly schedule: both fields are wildcards. *)
Lemma zero_hour_minute_coerced_to_wildcard_witness :
  cron_fields "* * * * 3" !! 1%nat = Some "*" /\
  cron_fields "* * * * 3" !! 0%nat = Some "*".
Proof.
  pose (sd := {| type := VStr "3"; month := VUndefined; day := VUndefined;
                 time := TDate (Some 0) |}).
  destruct (zero_hour_minute_coerced_to_wildcard (utc 0) sd) as [Hfields _].
  - left. reflexivity.
  - destruct (Hfields "* * * * 3" eq_refl) as [Hhour Hminute].
    split; [apply Hhour | apply Hminute]; reflexivity.
Defined.

(** C5: the descriptor of the zero-coercion scenario, a [time] at midnight
    and no [type], passes the fallback test and its extracted hour and minute
    are zero, but the compiler throws at the read of
    [scheduleDate.type.length]: no expression is compiled, where the claim
    has the wildcard in both fields. *)
Theorem midnight_time_only_throws :
  truthy (type (time_only (Some new_year_2024))) = false /\
  time_truthy (time (time_only (Some new_year_2024))) = true /\
  hour (utc 0) (moment (utc 0) (time (time_only (Some new_year_2024)))) = VNum 0 /\
  minute (utc 0) (moment (utc 0) (time (time_only (Some new_year_2024)))) = VNum 0 /\
  createScheduleRule (utc 0) (Some (time_only (Some new_year_2024))) = Throw TypeError.
Proof. vm_compute. done. Qed.

(** * The registry: properties *)

Section Registry.

Variable env : Env.

(** [createSchedule] on a message: an entry appended when the rule compiles,
    with a new job when the runtime accepts the rule and with [null]
    otherwise; nothing changed when the compiler throws. *)
Lemma createSchedule_message (msg : Message) (w : World) :
  createSchedule env (Some msg) w =
  match createScheduleRule (clock env) (scheduleDate msg) with
  | Normal r =>
    if accepts env r then
      let j := {| handle := length (scheduled w); rule := r; payload := msg |} in
      (Normal tt,
       {| ENGAGE_SCHEDULES := ENGAGE_SCHEDULES w ++ [{| id := _id msg; job := Some j |}];
          scheduled := scheduled w ++ [j];
          cancelled := cancelled w |})
    else
      (Normal tt,
       {| ENGAGE_SCHEDULES := ENGAGE_SCHEDULES w ++ [{| id := _id msg; job := None |}];
          scheduled := scheduled w;
          cancelled := cancelled w |})
  | Throw e => (Throw e, w)
  end.
Proof.
  unfold createSchedule, mbind, M_bind, lift, scheduleJob.
  destruct (createScheduleRule (clock env) (scheduleDate msg)); [|reflexivity].
  destruct (accepts env a); reflexivity.
Qed.

Lemma createSchedule_null (w : World) :
  createSchedule env None w = (Throw TypeError, w).
Proof. reflexivity. Qed.

Lemma createSchedule_ids (msg : Message) (w : World) :
  ids (snd (createSchedule env (Some msg) w)) = ids w \/
  ids (snd (createSchedule env (Some msg) w)) = ids w ++ [_id msg].
Proof.
  rewrite createSchedule_message.
  destruct (createScheduleRule (clock env) (scheduleDate msg)) as [r|]; [|by left].
  right. destruct (accepts env r); unfold ids; simpl; by rewrite fmap_app.
Qed.

(** No entry for the id: the call returns at once. *)
Lemma updateOrRemoveSchedule_start_not_found (q : string) (update : bool) (w : World) :
  list_find (fun engage => id engage = q) (ENGAGE_SCHEDULES w) = None ->
  updateOrRemoveSchedule_start q update w = (Normal false, w).
Proof.
  intros Hfind. unfold updateOrRemoveSchedule_start, mbind, M_bind, findIndex.
  by rewrite Hfind.
Qed.

(** An entry found at [i] that holds a job: the job is cancelled and the
    entry spliced out, and the call is suspended when [update] is truthy. *)
Lemma updateOrRemoveSchedule_start_found
    (q : string) (update : bool) (w : World) i e j :
  list_find (fun engage => id engage = q) (ENGAGE_SCHEDULES w) = Some (i, e) ->
  job e = Some j ->
  updateOrRemoveSchedule_start q update w =
    (Normal update,
     {| ENGAGE_SCHEDULES := delete i (ENGAGE_SCHEDULES w);
        scheduled := scheduled w;
        cancelled := cancelled w ++ [handle j] |}).
Proof.
  intros Hfind Hjob. unfold updateOrRemoveSchedule_start, mbind, M_bind, findIndex.
  rewrite Hfind, Hjob. simpl. by destruct update.
Qed.

(** An entry found that holds [null]: [.job.cancel()] throws before anything
    is changed. *)
Lemma updateOrRemoveSchedule_start_null
    (q : string) (update : bool) (w : World) i e :
  list_find (fun engage => id engage = q) (ENGAGE_SCHEDULES w) = Some (i, e) ->
  job e = None ->
  updateOrRemoveSchedule_start q update w = (Throw TypeError, w).
Proof.
  intros Hfind Hjob. unfold updateOrRemoveSchedule_start, mbind, M_bind, findIndex.
  by rewrite Hfind, Hjob.
Qed.

Lemma updateOrRemoveSchedule_not_found (q : string) (update : bool) (w : World) :
  list_find (fun engage => id engage = q) (ENGAGE_SCHEDULES w) = None ->
  updateOrRemoveSchedule env q update w = (Normal tt, w).
Proof.
  intros Hfind. unfold updateOrRemoveSchedule, mbind, M_bind.
  by rewrite (updateOrRemoveSchedule_start_not_found q update w Hfind).
Qed.

Lemma updateOrRemoveSchedule_found (q : string) (update : bool) (w : World) i e j :
  list_find (fun engage => id engage = q) (ENGAGE_SCHEDULES w) = Some (i, e) ->
  job e = Some j ->
  updateOrRemoveSchedule env q update w =
  (if update then createSchedule env (findOne (EngageMessages env) q) else mret tt)
    {| ENGAGE_SCHEDULES := delete i (ENGAGE_SCHEDULES w);
       scheduled := scheduled w;
       cancelled := cancelled w ++ [handle j] |}.
Proof.
  intros Hfind Hjob. unfold updateOrRemoveSchedule, mbind, M_bind.
  rewrite (updateOrRemoveSchedule_start_found q update w i e j Hfind Hjob).
  by destruct update.
Qed.

(** When the first entry with the id holds [null], the entry made for a rule
    the runtime did not accept, every call of [updateOrRemoveSchedule] for
    the id throws at [.job.cancel()] and changes nothing: such an entry is
    never removed. *)
Lemma updateOrRemoveSchedule_null_job (q : string) (update : bool) (w : World) i e :
  list_find (fun engage => id engage = q) (ENGAGE_SCHEDULES w) = Some (i, e) ->
  job e = None ->
  updateOrRemoveSchedule env q update w = (Throw TypeError, w).
Proof.
  intros Hfind Hjob. unfold updateOrRemoveSchedule, mbind, M_bind.
  by rewrite (updateOrRemoveSchedule_start_null q update w i e Hfind Hjob).
Qed.

End Registry.

(** The first match of a list splits it. *)
Lemma list_find_split {A} (P : A -> Prop) `{!forall x, Decision (P x)} (l : list A) i x :
  list_find P l = Some (i, x) ->
  exists before after,
    l = before ++ x :: after /\ P x /\ Forall (fun y => ~ P y) before /\
    delete i l = before ++ after.
Proof.
  intros (Hi & HP & Hleast)%list_find_Some.
  exists (take i l), (drop (S i) l). split_and!.
  - by rewrite take_drop_middle.
  - done.
  - apply Forall_lookup. intros j y Hj.
    apply lookup_take_Some in Hj as [Hj Hlt]. eauto.
  - apply delete_take_drop.
Qed.

Lemma list_find_is_Some_ids (q : string) (w : World) :
  q ∈ ids w ->
  exists i e, list_find (fun engage => id engage = q) (ENGAGE_SCHEDULES w) = Some (i, e).
Proof.
  intros (e & -> & He)%list_elem_of_fmap.
  destruct (list_find_elem_of (fun engage => id engage = id e) _ e He eq_refl)
    as [[i e'] Hfind].
  eauto.
Qed.

Lemma list_find_None_ids (q : string) (w : World) :
  q ∉ ids w ->
  list_find (fun engage => id engage = q) (ENGAGE_SCHEDULES w) = None.
Proof.
  intros Hq. apply list_find_None, Forall_forall. intros e He Heq.
  apply Hq. unfold ids. apply list_elem_of_fmap. eauto.
Qed.

Lemma findOne_id (store : list Message) (q : string) (msg : Message) :
  findOne store q = Some msg -> _id msg = q.
Proof.
  unfold findOne. destruct (list_find _ store) as [[i m]|] eqn:Hfind; [|done].
  intros [= <-]. by apply list_find_Some in Hfind as (_ & ? & _).
Qed.

(** ** Removal *)

(** When the first entry with the id holds a job, a call of
    [updateOrRemoveSchedule] run to completion cancels that job and removes
    that entry only: the entries before it (none of which has the id) and
    all the entries after it, later duplicates included, stay in their
    order; the only other change is the entry a re-creation appends. *)
Theorem updateOrRemoveSchedule_removes_first_match
    (env : Env) (q : string) (update : bool) (w : World)
    (i : nat) (e : ScheduleEntry) (j : Job) :
  list_find (fun engage => id engage = q) (ENGAGE_SCHEDULES w) = Some (i, e) ->
  job e = Some j ->
  exists before after appended,
    ENGAGE_SCHEDULES w = before ++ e :: after /\
    id e = q /\
    Forall (fun x => id x <> q) before /\
    ENGAGE_SCHEDULES (snd (updateOrRemoveSchedule env q update w)) =
      before ++ after ++ appended /\
    cancelled (snd (updateOrRemoveSchedule env q update w)) =
      cancelled w ++ [handle j] /\
    (length appended <= 1)%nat /\
    (update = false -> appended = []).
Proof.
  intros Hfind Hjob.
  destruct (list_find_split _ _ _ _ Hfind) as (before & after & Hsplit & He & Hbefore & Hdel).
  rewrite (updateOrRemoveSchedule_found env q update w i e j Hfind Hjob), Hdel.
  exists before, after.
  destruct update.
  - destruct (findOne (EngageMessages env) q) as [msg|].
    + rewrite createSchedule_message.
      destruct (createScheduleRule (clock env) (scheduleDate msg)) as [r|err]; simpl.
      * destruct (accepts env r); simpl;
          eexists [_]; rewrite <- app_assoc; split_and!; first [done | simpl; lia].
      * exists []. rewrite app_nil_r. split_and!; first [done | simpl; lia].
    + rewrite createSchedule_null. simpl.
      exists []. rewrite app_nil_r. split_and!; first [done | simpl; lia].
  - exists []. rewrite app_nil_r. simpl. split_and!; first [done | simpl; lia].
Qed.

(** A removal on the registry with two entries for the same id: the first is
    removed, the duplicate stays. *)
Lemma updateOrRemoveSchedule_removes_first_match_witness :
  exists before after appended,
    ENGAGE_SCHEDULES world_weekly_twice =
      before ++ {| id := "m1";
                   job := Some {| handle := 0; rule := "30 10 * * 3";
                                  payload := msg_weekly |} |} :: after /\
    "m1" = "m1" /\
    Forall (fun x => id x <> "m1") before /\
    ENGAGE_SCHEDULES (snd (updateOrRemoveSchedule (env_of []) "m1" false world_weekly_twice)) =
      before ++ after ++ appended /\
    cancelled (snd (updateOrRemoveSchedule (env_of []) "m1" false world_weekly_twice)) =
      cancelled world_weekly_twice ++ [0%nat] /\
    (length appended <= 1)%nat /\
    (false = false -> appended = []).
Proof.
  apply (updateOrRemoveSchedule_removes_first_match (env_of []) "m1" false
           world_weekly_twice 0
           {| id := "m1";
              job := Some {| handle := 0; rule := "30 10 * * 3"; payload := msg_weekly |} |}
           {| handle := 0; rule := "30 10 * * 3"; payload := msg_weekly |});
    reflexivity.
Defined.

(** C10: an entry made with the fallback rule holds the [null] the runtime
    returned; a call of [updateOrRemoveSchedule] that finds it throws at
    [.job.cancel()] and neither cancels nor removes anything. *)
Theorem updateOrRemoveSchedule_null_job_removes_nothing :
  createScheduleRule (utc 0) (scheduleDate msg_default) = Normal "* 45 23 * " /\
  ENGAGE_SCHEDULES world_one = [{| id := "m1"; job := None |}] /\
  updateOrRemoveSchedule (env_of []) "m1" false world_one = (Throw TypeError, world_one).
Proof. vm_compute. done. Qed.

(** With [update] truthy, a first entry for the id that holds a job and no
    message for the id in the store, the call run to completion throws after
    the job was cancelled and the entry removed; the registry stays without
    that entry and the runtime has no new job. *)
Theorem updateOrRemoveSchedule_missing_message_throws
    (env : Env) (q : string) (w : World) (i : nat) (e : ScheduleEntry) (j : Job) :
  list_find (fun engage => id engage = q) (ENGAGE_SCHEDULES w) = Some (i, e) ->
  job e = Some j ->
  findOne (EngageMessages env) q = None ->
  exists before after,
    ENGAGE_SCHEDULES w = before ++ e :: after /\
    id e = q /\
    Forall (fun x => id x <> q) before /\
    updateOrRemoveSchedule env q true w =
      (Throw TypeError,
       {| ENGAGE_SCHEDULES := before ++ after;
          scheduled := scheduled w;
          cancelled := cancelled w ++ [handle j] |}).
Proof.
  intros Hfind Hjob Hnone.
  destruct (list_find_split _ _ _ _ Hfind) as (before & after & Hsplit & He & Hbefore & Hdel).
  exists before, after. split_and!; [done..|].
  rewrite (updateOrRemoveSchedule_found env q true w i e j Hfind Hjob), Hdel, Hnone.
  apply createSchedule_null.
Qed.

(** An update for a message that is no longer in the store. *)
Lemma updateOrRemoveSchedule_missing_message_throws_witness :
  exists before after,
    ENGAGE_SCHEDULES world_weekly =
      before ++ {| id := "m1";
                   job := Some {| handle := 0; rule := "30 10 * * 3";
                                  payload := msg_weekly |} |} :: after /\
    "m1" = "m1" /\
    Forall (fun x => id x <> "m1") before /\
    updateOrRemoveSchedule (env_of [msg_other]) "m1" true world_weekly =
      (Throw TypeError,
       {| ENGAGE_SCHEDULES := before ++ after;
          scheduled := scheduled world_weekly;
          cancelled := cancelled world_weekly ++ [0%nat] |}).
Proof.
  apply (updateOrRemoveSchedule_missing_message_throws (env_of [msg_other]) "m1"
           world_weekly 0
           {| id := "m1";
              job := Some {| handle := 0; rule := "30 10 * * 3"; payload := msg_weekly |} |}
           {| handle := 0; rule := "30 10 * * 3"; payload := msg_weekly |});
    reflexivity.
Defined.

(** C9: with [update] truthy and no message for the id in the store, when the
    entry of the id was made with the fallback rule and holds [null], the
    call throws at [.job.cancel()] before the removal: the entry stays in the
    registry. *)
Theorem updateOrRemoveSchedule_null_job_missing_message :
  ids world_one = ["m1"] /\
  findOne (EngageMessages (env_of [])) "m1" = None /\
  updateOrRemoveSchedule (env_of []) "m1" true world_one = (Throw TypeError, world_one) /\
  ids (snd (updateOrRemoveSchedule (env_of []) "m1" true world_one)) = ["m1"].
Proof. vm_compute. done. Qed.

Lemma entries_for_nil_not_in (q : string) (w : World) :
  entries_for q w = [] -> q ∉ ids w.
Proof.
  intros Hnil (e & -> & He)%list_elem_of_fmap.
  by apply (filter_nil_not_elem_of _ _ e Hnil).
Qed.

(** C6, as amended: a call for an id without entry returns normally and
    changes nothing; and when the registry has at most one entry for the id,
    and that entry holds a job, a removal returns normally and a second
    removal is a no-op. *)
Theorem updateOrRemoveSchedule_unknown_id_noop
    (env env' : Env) (q : string) (w : World) :
  (forall update, q ∉ ids w -> updateOrRemoveSchedule env q update w = (Normal tt, w)) /\
  ((length (entries_for q w) <= 1)%nat ->
   (forall e, e ∈ entries_for q w -> is_Some (job e)) ->
   exists w1,
     updateOrRemoveSchedule env q false w = (Normal tt, w1) /\
     updateOrRemoveSchedule env' q false w1 = (Normal tt, w1)).
Proof.
  split.
  - intros update Hq. by apply updateOrRemoveSchedule_not_found, list_find_None_ids.
  - intros Hone Hjobs.
    destruct (list_find (fun engage => id engage = q) (ENGAGE_SCHEDULES w))
      as [[i e]|] eqn:Hfind.
    + destruct (list_find_split _ _ _ _ Hfind)
        as (before & after & Hsplit & He & Hbefore & Hdel).
      destruct (Hjobs e) as [j Hjob].
      { apply list_elem_of_filter. split; [done|].
        rewrite Hsplit. apply elem_of_app. right. left. }
      rewrite (updateOrRemoveSchedule_found env q false w i e j Hfind Hjob), Hdel.
      eexists; split; [reflexivity|].
      apply updateOrRemoveSchedule_not_found, list_find_None_ids, entries_for_nil_not_in.
      unfold entries_for in *. simpl. rewrite Hsplit in Hone.
      rewrite filter_app, filter_cons_True, length_app in Hone by done.
      simpl in Hone. rewrite filter_app.
      assert (filter (fun engage => id engage = q) before = []) as ->.
      { destruct (filter _ before); [done|simpl in Hone; lia]. }
      destruct (filter _ after); [done|simpl in Hone; lia].
    + exists w. split; by apply updateOrRemoveSchedule_not_found.
Qed.

(** C6, counterexample: on a registry with two entries for the id, both
    holding a job, the second removal is not a no-op, it removes the second
    entry. *)
Lemma second_removal_changes_registry :
  let w1 := snd (updateOrRemoveSchedule (env_of []) "m1" false world_weekly_twice) in
  ids w1 = ["m1"] /\
  ids (snd (updateOrRemoveSchedule (env_of []) "m1" false w1)) = [] /\
  updateOrRemoveSchedule (env_of []) "m1" false w1 <> (Normal tt, w1).
Proof. vm_compute. split_and!; [done..|discriminate]. Qed.

(** A removal of an id that was never scheduled, and a double removal of the
    only entry of the registry. *)
Lemma updateOrRemoveSchedule_unknown_id_noop_witness :
  updateOrRemoveSchedule (env_of []) "m2" true world_weekly = (Normal tt, world_weekly) /\
  exists w1,
    updateOrRemoveSchedule (env_of []) "m1" false world_weekly = (Normal tt, w1) /\
    updateOrRemoveSchedule (env_of [msg_weekly]) "m1" false w1 = (Normal tt, w1).
Proof.
  split.
  - apply (proj1 (updateOrRemoveSchedule_unknown_id_noop
                    (env_of []) (env_of []) "m2" world_weekly) true).
    apply (bool_decide_unpack _). vm_compute. exact I.
  - apply (proj2 (updateOrRemoveSchedule_unknown_id_noop
                    (env_of []) (env_of [msg_weekly]) "m1" world_weekly)).
    + vm_compute. lia.
    + intros e [-> | Hin%not_elem_of_nil]%elem_of_cons; [by eexists|done].
Defined.

(** ** Uniqueness of ids *)

Lemma createSchedule_unique (env : Env) (msg : Message) (w : World) :
  unique_ids w -> _id msg ∉ ids w ->
  unique_ids (snd (createSchedule env (Some msg) w)).
Proof.
  unfold unique_ids. intros Hw Hnew.
  destruct (createSchedule_ids env msg w) as [-> | ->]; [done|].
  apply NoDup_app. split_and!; [done| |apply NoDup_singleton].
  intros x Hx ->%list_elem_of_singleton. done.
Qed.

Lemma for_of_cons {A} (body : A -> M unit) (x : A) (rest : list A) (w : World) :
  for_of (x :: rest) body w =
  match body x w with
  | (Normal _, w') => for_of rest body w'
  | (Throw e, w') => (Throw e, w')
  end.
Proof. reflexivity. Qed.

Lemma bootstrap_loop_unique (env : Env) (messages : list Message) (w : World) :
  unique_ids w ->
  NoDup (_id <$> messages) ->
  (forall m, m ∈ messages -> _id m ∉ ids w) ->
  unique_ids (snd (for_of messages (fun message => createSchedule env (Some message)) w)).
Proof.
  revert w. induction messages as [|m rest IH]; intros w Hw Hnd Hnew; [done|].
  rewrite fmap_cons in Hnd. apply NoDup_cons in Hnd as [Hm Hrest].
  assert (_id m ∉ ids w) as Hmw by (apply Hnew; left).
  pose proof (createSchedule_unique env m w Hw Hmw) as Hw'.
  pose proof (createSchedule_ids env m w) as Hids.
  rewrite for_of_cons.
  destruct (createSchedule env (Some m) w) as [[[]|err] w']; simpl in Hw', Hids; [|done].
  apply IH; [done..|].
  intros m' Hm' Hin. destruct Hids as [Hids | Hids]; rewrite Hids in Hin.
  - apply (Hnew m'); [by right|done].
  - apply elem_of_app in Hin as [Hin | Heq%list_elem_of_singleton].
    + apply (Hnew m'); [by right|done].
    + apply Hm. rewrite <- Heq. by apply list_elem_of_fmap_2.
Qed.

(** The part of an update before its [await] keeps the ids unique, and
    leaves no entry for the id when it suspends on a registry with unique
    ids. *)
Lemma updateOrRemoveSchedule_start_unique (q : string) (update : bool) (w : World) :
  unique_ids w ->
  unique_ids (snd (updateOrRemoveSchedule_start q update w)) /\
  (fst (updateOrRemoveSchedule_start q update w) = Normal true ->
   q ∉ ids (snd (updateOrRemoveSchedule_start q update w))).
Proof.
  intros Hw.
  destruct (list_find (fun engage => id engage = q) (ENGAGE_SCHEDULES w))
    as [[i e]|] eqn:Hfind.
  - destruct (job e) as [j|] eqn:Hjob.
    + destruct (list_find_split _ _ _ _ Hfind)
        as (before & after & Hsplit & He & Hbefore & Hdel).
      rewrite (updateOrRemoveSchedule_start_found q update w i e j Hfind Hjob), Hdel.
      unfold unique_ids, ids in Hw. rewrite Hsplit, fmap_app, fmap_cons in Hw.
      apply NoDup_app in Hw as (Hb & Hdisj & [Hq Ha]%NoDup_cons).
      unfold unique_ids, ids; simpl. rewrite fmap_app. split.
      * apply NoDup_app. split_and!; [done| |done].
        intros x Hx Hx'. apply (Hdisj x Hx). by right.
      * intros _ [Hin|Hin]%elem_of_app.
        -- apply (Hdisj q); [idtac|rewrite He; left]. done.
        -- by rewrite He in Hq.
    + rewrite (updateOrRemoveSchedule_start_null q update w i e Hfind Hjob).
      split; [done|discriminate].
  - rewrite (updateOrRemoveSchedule_start_not_found q update w Hfind).
    split; [done|discriminate].
Qed.

(** An update run to completion keeps the ids unique: on a registry with
    unique ids the entry it appends replaces the one it removed. *)
Lemma updateOrRemoveSchedule_unique (env : Env) (q : string) (update : bool) (w : World) :
  unique_ids w -> unique_ids (snd (updateOrRemoveSchedule env q update w)).
Proof.
  intros Hw. destruct (updateOrRemoveSchedule_start_unique q update w Hw) as [Hw1 Hq1].
  unfold updateOrRemoveSchedule, mbind, M_bind.
  destruct (updateOrRemoveSchedule_start q update w) as [[[]|err] w1];
    simpl in Hw1, Hq1; [|done..].
  unfold updateOrRemoveSchedule_resume.
  destruct (findOne (EngageMessages env) q) as [msg|] eqn:Hmsg; [|done].
  apply createSchedule_unique; [done|].
  rewrite (findOne_id _ _ _ Hmsg). by apply Hq1.
Qed.

(** C3, as amended: uniqueness of the ids of the registry is preserved by
    every sequence of steps of the tracker in which each execution of
    [createSchedule], be it a direct call, the loop of the bootstrap or the
    resumption of an update after its [await], registers ids without entry
    at that moment; the part of [updateOrRemoveSchedule] before its [await]
    preserves it unconditionally. *)
Theorem unique_ids_preserved (w : World) (steps : list (Env * step)) (w' : World) :
  unique_ids w -> runs_new w steps w' -> unique_ids w'.
Proof.
  intros Hw Hruns. induction Hruns as [w | w env k rest w' Hnew Hruns IH]; [done|].
  apply IH. destruct k as [[msg|] | q update | q | ]; simpl in *.
  - by apply createSchedule_unique.
  - done.
  - destruct (updateOrRemoveSchedule_start_unique q update w Hw) as [Hw1 _].
    unfold mbind, M_bind.
    by destruct (updateOrRemoveSchedule_start q update w) as [[b|err] w1].
  - unfold updateOrRemoveSchedule_resume.
    destruct (findOne (EngageMessages env) q) as [msg|] eqn:Hmsg; [|done].
    apply createSchedule_unique; [done|by apply Hnew].
  - destruct Hnew as [Hnd Hfresh]. by apply bootstrap_loop_unique.
Qed.

(** C3, counterexample: two calls of [createSchedule] for the same message
    leave two entries with its id. *)
Lemma createSchedule_twice_two_entries :
  ids world_twice = ["m1"; "m1"] /\ ~ unique_ids world_twice.
Proof.
  split; [reflexivity|].
  unfold unique_ids. change (ids world_twice) with ["m1"; "m1"].
  intros [Hin _]%NoDup_cons. apply Hin. left.
Qed.

(** A [createSchedule] for an id made while an update of that id is
    suspended at its [await] finds no entry, and the resumption of the update
    then appends a second one. *)
Lemma createSchedule_during_update_two_entries :
  let w1 := snd (run_step (env_of []) (UpdateOrRemoveStart "m1" true) world_weekly) in
  let w2 := snd (run_step (env_of []) (CreateSchedule (Some msg_weekly)) w1) in
  let w3 := snd (run_step (env_of [msg_weekly]) (UpdateOrRemoveResume "m1") w2) in
  ids world_weekly = ["m1"] /\ ids w1 = [] /\ ids w2 = ["m1"] /\ ids w3 = ["m1"; "m1"].
Proof. vm_compute. done. Qed.

(** A process that boots on a store of two live messages, starts an update
    of one, registers a third message while the update is suspended, and
    resumes the update. *)
Lemma unique_ids_preserved_witness :
  unique_ids
    (snd (run_step (env_of [msg_weekly; msg_monthly]) (UpdateOrRemoveResume "m1")
       (snd (run_step (env_of []) (CreateSchedule (Some msg_manual))
          (snd (run_step (env_of []) (UpdateOrRemoveStart "m1" true)
             (snd (run_step (env_of [msg_weekly; msg_monthly]) InitCronJob
                empty_world)))))))).
Proof.
  apply (unique_ids_preserved empty_world
    [(env_of [msg_weekly; msg_monthly], InitCronJob);
     (env_of [], UpdateOrRemoveStart "m1" true);
     (env_of [], CreateSchedule (Some msg_manual));
     (env_of [msg_weekly; msg_monthly], UpdateOrRemoveResume "m1")]).
  - apply NoDup_nil_2.
  - apply runs_new_cons.
    { split.
      - apply (bool_decide_unpack _). vm_compute. exact I.
      - intros m Hm. apply not_elem_of_nil. }
    apply runs_new_cons; [exact I|].
    apply runs_new_cons.
    { apply (bool_decide_unpack _). vm_compute. exact I. }
    apply runs_new_cons; [|apply runs_new_nil].
    intros msg [= <-]. apply (bool_decide_unpack _). vm_compute. exact I.
Defined.

(** ** Update after create *)

(** When the runtime accepted the rule of the first registration and the
    rule of the message read back from the store compiles and is accepted,
    an update run to completion after [createSchedule] cancels the job of the
    first call and leaves one entry for the id, with a job compiled from the
    message read back. *)
Lemma update_after_create_replaces_job
    (env0 env1 : Env) (msg msg' : Message) (r0 r1 : string) (w : World) :
  _id msg ∉ ids w ->
  createScheduleRule (clock env0) (scheduleDate msg) = Normal r0 ->
  accepts env0 r0 = true ->
  findOne (EngageMessages env1) (_id msg) = Some msg' ->
  createScheduleRule (clock env1) (scheduleDate msg') = Normal r1 ->
  accepts env1 r1 = true ->
  let old := {| handle := length (scheduled w); rule := r0; payload := msg |} in
  let new := {| handle := S (length (scheduled w)); rule := r1; payload := msg' |} in
  updateOrRemoveSchedule env1 (_id msg) true (snd (createSchedule env0 (Some msg) w)) =
    (Normal tt,
     {| ENGAGE_SCHEDULES := ENGAGE_SCHEDULES w ++ [{| id := _id msg; job := Some new |}];
        scheduled := scheduled w ++ [old; new];
        cancelled := cancelled w ++ [handle old] |}).
Proof.
  intros Hnew Hr0 Ha0 Hfind Hr1 Ha1 old new.
  rewrite createSchedule_message, Hr0, Ha0. simpl snd. fold old.
  set (w0 := {| ENGAGE_SCHEDULES := ENGAGE_SCHEDULES w ++ [{| id := _id msg; job := Some old |}];
                scheduled := scheduled w ++ [old];
                cancelled := cancelled w |}).
  assert (list_find (fun engage => id engage = _id msg) (ENGAGE_SCHEDULES w0)
          = Some (length (ENGAGE_SCHEDULES w), {| id := _id msg; job := Some old |})) as Hidx.
  { unfold w0; simpl. rewrite list_find_app_r by by apply list_find_None_ids.
    simpl. by rewrite decide_True. }
  rewrite (updateOrRemoveSchedule_found env1 _ true w0 _ _ old Hidx eq_refl), Hfind.
  rewrite createSchedule_message, Hr1, Ha1. unfold w0; simpl.
  rewrite delete_take_drop, take_app_length, drop_ge by (rewrite length_app; simpl; lia).
  rewrite app_nil_r, length_app, (findOne_id _ _ _ Hfind), <- app_assoc. simpl.
  by rewrite Nat.add_1_r.
Qed.

(** C7: after [createSchedule] of a message whose rule the runtime accepted,
    when the message read back from the store has a [time] and no [type],
    the update throws in the rule compiler once the old job is cancelled and
    its entry removed: the registry is left with no entry for the id, not
    with one. *)
Theorem update_to_time_only_message_loses_entry :
  ENGAGE_SCHEDULES world_weekly =
    [{| id := "m1";
        job := Some {| handle := 0; rule := "30 10 * * 3"; payload := msg_weekly |} |}] /\
  findOne [msg_time_only] "m1" = Some msg_time_only /\
  updateOrRemoveSchedule (env_of [msg_time_only]) "m1" true world_weekly =
    (Throw TypeError,
     {| ENGAGE_SCHEDULES := [];
        scheduled := scheduled world_weekly;
        cancelled := [0%nat] |}).
Proof. vm_compute. done. Qed.

(** ** Bootstrap *)

Lemma find_live_spec (store : list Message) (m : Message) :
  m ∈ find_live store <->
  m ∈ store /\ (kind m = "auto" \/ kind m = "visitorAuto") /\ isLive m = true.
Proof. unfold find_live. rewrite list_elem_of_filter. tauto. Qed.



(** C8: on a store whose first live message has a [time] and no [type], the
    bootstrap throws at that message and never calls [createSchedule] for the
    live message after it: nothing is registered. *)
Theorem initCronJob_stops_at_time_only_message :
  find_live [msg_time_only; msg_other; msg_manual] = [msg_time_only; msg_other] /\
  initCronJob (env_of [msg_time_only; msg_other; msg_manual]) empty_world =
    (Throw TypeError, empty_world).
Proof. vm_compute. done. Qed.
(** * Further properties of the rule compiler *)

Section RuleCompilerMore.

Variable c : Clock.

(** The compiler throws exactly on the descriptors that have a [Date] in
    [time] and [undefined] or [null] in [type]; an absent descriptor never
    throws. *)
Theorem createScheduleRule_throws_iff (o : option ScheduleDate) (e : error) :
  createScheduleRule c o = Throw e <->
  exists sd, o = Some sd /\
    (type sd = VUndefined \/ type sd = VNull) /\ time_truthy (time sd) = true.
Proof.
  split.
  - destruct o as [sd|]; [|discriminate]. unfold createScheduleRule.
    destruct (time_truthy (time sd)) eqn:Hti;
      destruct (type sd) as [| | |n|s] eqn:Hty; simpl; try discriminate;
      try (destruct (negb _); discriminate); eauto 6.
  - intros (sd & -> & Hty & Hti). unfold createScheduleRule. rewrite Hti.
    destruct e. by destruct Hty as [-> | ->].
Qed.

(** With a [time] that is present ([null] or a [Date]) the compiler does not
    read the wall clock: only the time zone matters. *)
Theorem createScheduleRule_ignores_now (n : Z) (sd : ScheduleDate) :
  time sd <> TUndefined ->
  createScheduleRule {| now := n; LocalTZA := LocalTZA c |} (Some sd) =
  createScheduleRule c (Some sd).
Proof.
  intros Hti. unfold createScheduleRule.
  destruct (time sd) as [| |[t|]]; done.
Qed.

(** A one-character [type] is the day of week: it is copied to the last
    field, and the day field is the wildcard whatever [day] holds. *)
Theorem createScheduleRule_day_of_week (sd : ScheduleDate) (ch : ascii) :
  type sd = VStr (String ch EmptyString) ->
  createScheduleRule c (Some sd) =
    Normal (to_string (js_or (minute c (moment c (time sd))) wildcard) +:+ " " +:+
            to_string (js_or (hour c (moment c (time sd))) wildcard) +:+ " * " +:+
            to_string (js_or (month sd) wildcard) +:+ " " +:+ String ch EmptyString).
Proof.
  intros Hty. unfold createScheduleRule. rewrite Hty.
  cbn -[strict_eq to_string js_or hour minute moment].
  assert (strict_eq (VNum (Z.of_nat 1)) (VNum 1) = true) as -> by done.
  assert (strict_eq (VStr (String ch EmptyString)) (VStr "month") = false) as ->.
  { apply bool_decide_eq_false. discriminate. }
  assert (strict_eq (VStr (String ch EmptyString)) (VStr "year") = false) as ->.
  { apply bool_decide_eq_false. discriminate. }
  reflexivity.
Qed.

(** With [type] equal to [month] or [year] the day field is [day], or the
    wildcard when [day] is falsy, and the day-of-week field is the
    wildcard. *)
Theorem createScheduleRule_day_of_month (sd : ScheduleDate) :
  type sd = VStr "month" \/ type sd = VStr "year" ->
  createScheduleRule c (Some sd) =
    Normal (to_string (js_or (minute c (moment c (time sd))) wildcard) +:+ " " +:+
            to_string (js_or (hour c (moment c (time sd))) wildcard) +:+ " " +:+
            to_string (js_or (day sd) wildcard) +:+ " " +:+
            to_string (js_or (month sd) wildcard) +:+ " *").
Proof.
  intros [Hty | Hty]; unfold createScheduleRule; rewrite Hty; reflexivity.
Qed.

(** Any other [type] that has a [length] to read (a number, or a string that
    is neither one character long nor [month] nor [year]) is ignored: on the
    extraction path both the day and the day-of-week field are wildcards. *)
Theorem createScheduleRule_other_type_ignored (sd : ScheduleDate) :
  (exists n, type sd = VNum n) \/ type sd = VNaN \/
  (exists s, type sd = VStr s /\ String.length s <> 1%nat /\
             s <> "month" /\ s <> "year") ->
  truthy (type sd) = true \/ time_truthy (time sd) = true ->
  createScheduleRule c (Some sd) =
    Normal (to_string (js_or (minute c (moment c (time sd))) wildcard) +:+ " " +:+
            to_string (js_or (hour c (moment c (time sd))) wildcard) +:+ " * " +:+
            to_string (js_or (month sd) wildcard) +:+ " *").
Proof.
  intros Hty Hguard. unfold createScheduleRule.
  assert (negb (truthy (type sd)) && negb (time_truthy (time sd)) = false) as ->.
  { destruct Hguard as [-> | ->]; simpl; [done|apply andb_false_r]. }
  destruct Hty as [[n ->] | [-> | (s & -> & Hlen & Hm & Hy)]]; [done..|].
  cbn -[strict_eq to_string js_or hour minute moment].
  assert (strict_eq (VNum (Z.of_nat (String.length s))) (VNum 1) = false) as ->.
  { apply bool_decide_eq_false. intros [= H]. lia. }
  assert (strict_eq (VStr s) (VStr "month") = false) as ->.
  { apply bool_decide_eq_false. congruence. }
  assert (strict_eq (VStr s) (VStr "year") = false) as ->.
  { apply bool_decide_eq_false. congruence. }
  reflexivity.
Qed.

End RuleCompilerMore.

Lemma cron_fields_single (f : string) :
  no_space f = true -> cron_fields f = [f].
Proof.
  induction f as [|ch f IH]; simpl; [done|].
  intros [Hch Hf]%andb_prop. rewrite negb_true_iff in Hch.
  by rewrite Hch, (IH Hf).
Qed.

Lemma no_space_or_wildcard (v : value) :
  no_space (to_string v) = true ->
  no_space (to_string (js_or v wildcard)) = true.
Proof. intros Hv. unfold js_or. by destruct (truthy v). Qed.

(** Every expression the compiler returns, the fallback included, splits
    into exactly five fields at its spaces, provided the renderings of
    [month], [day] and [type] contain no space. *)
Theorem createScheduleRule_five_fields
    (c : Clock) (o : option ScheduleDate) (s : string) :
  (forall sd, o = Some sd ->
     no_space (to_string (month sd)) = true /\
     no_space (to_string (day sd)) = true /\
     no_space (to_string (type sd)) = true) ->
  createScheduleRule c o = Normal s ->
  length (cron_fields s) = 5%nat.
Proof.
  intros Hfields. destruct o as [sd|]; [|by intros [= <-]].
  destruct (Hfields sd eq_refl) as (Hmo & Hd & Hty). unfold createScheduleRule.
  destruct (negb (truthy (type sd)) && negb (time_truthy (time sd)));
    [by intros [= <-]|].
  destruct (get_length (type sd)) as [len|]; [|discriminate]. intros [= <-].
  rewrite (cron_fields_cons _ _ (minute_field_no_space c _)).
  rewrite (cron_fields_cons _ _ (hour_field_no_space c _)).
  rewrite cron_fields_cons, cron_fields_cons, cron_fields_single; [done|..].
  - destruct (strict_eq len (VNum 1)); [|done]. by apply no_space_or_wildcard.
  - by apply no_space_or_wildcard.
  - destruct (_ || _); [|done]. by apply no_space_or_wildcard.
Qed.

Lemma createScheduleRule_five_fields_witness :
  length (cron_fields "30 10 * * 3") = 5%nat.
Proof.
  apply (createScheduleRule_five_fields (utc 0) (scheduleDate msg_weekly)).
  - intros sd [= <-]. done.
  - reflexivity.
Defined.

Lemma createScheduleRule_ignores_now_witness :
  createScheduleRule {| now := half_past_ten; LocalTZA := LocalTZA (utc 0) |}
    (Some {| type := VStr "3"; month := VUndefined; day := VUndefined; time := TNull |}) =
  createScheduleRule (utc 0)
    (Some {| type := VStr "3"; month := VUndefined; day := VUndefined; time := TNull |}).
Proof. apply (createScheduleRule_ignores_now (utc 0) half_past_ten). discriminate. Defined.

Lemma createScheduleRule_day_of_week_witness :
  createScheduleRule (utc 0)
    (Some {| type := VStr "3"; month := VNum 6; day := VNum 15;
             time := TDate (Some half_past_ten) |}) = Normal "30 10 * 6 3".
Proof.
  apply (createScheduleRule_day_of_week (utc 0)
    {| type := VStr "3"; month := VNum 6; day := VNum 15;
       time := TDate (Some half_past_ten) |} "3"%char).
  reflexivity.
Defined.

Lemma createScheduleRule_day_of_month_witness :
  createScheduleRule (utc 0)
    (Some {| type := VStr "year"; month := VNum 6; day := VNum 15;
             time := TDate (Some half_past_ten) |}) = Normal "30 10 15 6 *".
Proof.
  apply (createScheduleRule_day_of_month (utc 0)
    {| type := VStr "year"; month := VNum 6; day := VNum 15;
       time := TDate (Some half_past_ten) |}).
  right. reflexivity.
Defined.

Lemma createScheduleRule_other_type_ignored_witness :
  createScheduleRule (utc 0)
    (Some {| type := VNum 3; month := VUndefined; day := VNum 15;
             time := TDate (Some half_past_ten) |}) = Normal "30 10 * * *".
Proof.
  apply (createScheduleRule_other_type_ignored (utc 0)
    {| type := VNum 3; month := VUndefined; day := VNum 15;
       time := TDate (Some half_past_ten) |}).
  - left. by exists 3.
  - left. reflexivity.
Defined.

(** * Further properties of the registry *)

Lemma filter_all {A} (P : A -> Prop) `{!forall x, Decision (P x)} (l : list A) :
  Forall P l -> filter P l = l.
Proof.
  induction 1 as [|x l Hx Hl IH]; [done|]. by rewrite filter_cons_True, IH.
Qed.

Lemma filter_remove_one {A B} `{!EqDecision B} (f : A -> B) (l1 l2 : list A) (x : A) :
  NoDup (f <$> (l1 ++ x :: l2)) ->
  filter (fun y => f y <> f x) (l1 ++ x :: l2) = l1 ++ l2.
Proof.
  rewrite fmap_app, fmap_cons. intros (H1 & Hdisj & [Hx H2]%NoDup_cons)%NoDup_app.
  rewrite filter_app, filter_cons_False by (intros Hne; by apply Hne).
  rewrite !filter_all; [done|..].
  - apply Forall_forall. intros y Hy Heq. apply Hx. rewrite <- Heq.
    by apply list_elem_of_fmap_2.
  - apply Forall_forall. intros y Hy Heq. apply (Hdisj (f y)).
    + by apply list_elem_of_fmap_2.
    + rewrite Heq. left.
Qed.

Lemma handles_NoDup (l : list Job) :
  (forall i j, l !! i = Some j -> handle j = i) -> NoDup (handle <$> l).
Proof.
  intros Hidx. apply NoDup_alt. intros i i' h.
  rewrite !list_lookup_fmap.
  destruct (l !! i) as [j|] eqn:Hj; [|done].
  destruct (l !! i') as [j'|] eqn:Hj'; [|done].
  simpl. intros [= <-] [= Heq]. rewrite <- (Hidx _ _ Hj), <- (Hidx _ _ Hj'). done.
Qed.

Lemma filter_not_cancelled_snoc (done : list nat) (h : nat) (l : list Job) :
  filter (fun j => handle j ∉ done ++ [h]) l =
  filter (fun j => handle j <> h) (filter (fun j => handle j ∉ done) l).
Proof.
  induction l as [|j l IH]; [done|].
  rewrite (filter_cons (fun j => handle j ∉ done ++ [h])).
  rewrite (filter_cons (fun j => handle j ∉ done)).
  destruct (decide (handle j ∉ done ++ [h])) as [Hin|Hin];
    rewrite not_elem_of_app, list_elem_of_singleton in Hin.
  - destruct Hin as [Hd Hh]. rewrite decide_True by done.
    by rewrite filter_cons_True, IH.
  - destruct (decide (handle j ∉ done)) as [Hd|Hd]; [|done].
    rewrite filter_cons_False; [done|]. intros Hh. apply Hin. done.
Qed.

Lemma tracks_live_empty : tracks_live empty_world.
Proof.
  split_and!; [done| |].
  - intros i j Hj. simpl in Hj. by rewrite lookup_nil in Hj.
  - intros h Hh. simpl in Hh. by apply not_elem_of_nil in Hh.
Qed.

Lemma tracks_live_createSchedule (env : Env) (message : option Message) (w : World) :
  tracks_live w -> tracks_live (snd (createSchedule env message w)).
Proof.
  intros (Hjobs & Hidx & Hcancel). destruct message as [msg|]; [|done].
  rewrite createSchedule_message.
  destruct (createScheduleRule (clock env) (scheduleDate msg)) as [r|err]; [|done].
  destruct (accepts env r); unfold tracks_live, live_jobs in *; simpl; split_and!.
  - rewrite omap_app, filter_app, Hjobs. f_equal. simpl.
    rewrite filter_cons_True; [done|]. simpl. intros Hin%Hcancel. lia.
  - intros i j [[_ Hj] | [-> <-]]%lookup_snoc_Some; [by apply Hidx|done].
  - intros h Hh%Hcancel. rewrite length_app. simpl. lia.
  - rewrite omap_app, Hjobs. simpl. by rewrite app_nil_r.
  - done.
  - done.
Qed.

Lemma tracks_live_removal
    (w : World) (before after : list ScheduleEntry) (e : ScheduleEntry) (j : Job) :
  tracks_live w ->
  ENGAGE_SCHEDULES w = before ++ e :: after ->
  job e = Some j ->
  tracks_live {| ENGAGE_SCHEDULES := before ++ after;
                 scheduled := scheduled w;
                 cancelled := cancelled w ++ [handle j] |}.
Proof.
  intros (Hjobs & Hidx & Hcancel) Hsplit Hjob.
  assert (omap job (ENGAGE_SCHEDULES w) = omap job before ++ j :: omap job after) as Hreg.
  { rewrite Hsplit, omap_app. simpl. by rewrite Hjob. }
  assert (j ∈ live_jobs w) as Hlive.
  { rewrite <- Hjobs, Hreg. apply elem_of_app. right. left. }
  unfold tracks_live, live_jobs in *. simpl. split_and!.
  - rewrite filter_not_cancelled_snoc, <- Hjobs, Hreg, omap_app.
    rewrite (filter_remove_one handle (omap job before) (omap job after) j); [done|].
    rewrite <- Hreg, Hjobs.
    apply (sublist_NoDup _ (handle <$> scheduled w));
      [by apply handles_NoDup | by apply fmap_sublist, sublist_filter].
  - done.
  - intros h [Hh | ->%list_elem_of_singleton]%elem_of_app; [by apply Hcancel|].
    apply list_elem_of_filter in Hlive as [_ Hin].
    apply list_elem_of_lookup in Hin as [i Hi].
    rewrite (Hidx _ _ Hi). by eapply lookup_lt_Some.
Qed.

Lemma tracks_live_updateOrRemoveSchedule_start (q : string) (update : bool) (w : World) :
  tracks_live w -> tracks_live (snd (updateOrRemoveSchedule_start q update w)).
Proof.
  intros Hw.
  destruct (list_find (fun engage => id engage = q) (ENGAGE_SCHEDULES w))
    as [[i e]|] eqn:Hfind.
  - destruct (job e) as [j|] eqn:Hjob.
    + destruct (list_find_split _ _ _ _ Hfind)
        as (before & after & Hsplit & He & Hbefore & Hdel).
      rewrite (updateOrRemoveSchedule_start_found q update w i e j Hfind Hjob), Hdel.
      by apply (tracks_live_removal w before after e j).
    + by rewrite (updateOrRemoveSchedule_start_null q update w i e Hfind Hjob).
  - by rewrite (updateOrRemoveSchedule_start_not_found q update w Hfind).
Qed.

Lemma tracks_live_bootstrap_loop (env : Env) (messages : list Message) (w : World) :
  tracks_live w ->
  tracks_live (snd (for_of messages (fun message => createSchedule env (Some message)) w)).
Proof.
  revert w. induction messages as [|m rest IH]; intros w Hw; [done|].
  rewrite for_of_cons.
  pose proof (tracks_live_createSchedule env (Some m) w Hw) as Hw'.
  destruct (createSchedule env (Some m) w) as [[[]|err] w']; simpl in Hw'; [|done].
  by apply IH.
Qed.

(** Whatever steps of the tracker run, in whatever order and environments
    and whether they throw or not, the jobs held by the entries of the
    registry are exactly the jobs of the runtime that were not cancelled, in
    creation order: no job keeps firing without an entry that holds it, and
    no entry holds a cancelled job. *)
Theorem registry_tracks_live_jobs (w : World) (steps : list (Env * step)) :
  tracks_live w -> tracks_live (run_all w steps).
Proof.
  revert w. induction steps as [|[env k] rest IH]; intros w Hw; [done|].
  simpl. apply IH. destruct k as [message | q update | q | ]; simpl.
  - by apply tracks_live_createSchedule.
  - pose proof (tracks_live_updateOrRemoveSchedule_start q update w Hw) as Hw1.
    unfold mbind, M_bind.
    by destruct (updateOrRemoveSchedule_start q update w) as [[b|err] w1].
  - by apply tracks_live_createSchedule.
  - by apply tracks_live_bootstrap_loop.
Qed.

(** A process that boots, registers a message a second time while an update
    of it is suspended, resumes the update with a message whose rule throws
    and starts a removal. *)
Lemma registry_tracks_live_jobs_witness :
  tracks_live
    (run_all empty_world
       [(env_of [msg_weekly; msg_other], InitCronJob);
        (env_of [], UpdateOrRemoveStart "m1" true);
        (env_of [], CreateSchedule (Some msg_weekly));
        (env_of [msg_time_only], UpdateOrRemoveResume "m1");
        (env_of [], UpdateOrRemoveStart "m1" false)]).
Proof. apply registry_tracks_live_jobs. exact tracks_live_empty. Defined.

(** Registering a message that has no entry, with a rule the runtime
    accepts, and then removing it gives the registry back as it was; the job
    of the message stays in the runtime, cancelled. *)
Theorem create_then_remove_restores_registry
    (env env' : Env) (msg : Message) (r : string) (w : World) :
  _id msg ∉ ids w ->
  createScheduleRule (clock env) (scheduleDate msg) = Normal r ->
  accepts env r = true ->
  updateOrRemoveSchedule env' (_id msg) false (snd (createSchedule env (Some msg) w)) =
    (Normal tt,
     {| ENGAGE_SCHEDULES := ENGAGE_SCHEDULES w;
        scheduled := scheduled w ++
          [{| handle := length (scheduled w); rule := r; payload := msg |}];
        cancelled := cancelled w ++ [length (scheduled w)] |}).
Proof.
  intros Hnew Hr Hacc. rewrite createSchedule_message, Hr, Hacc. simpl snd.
  set (j := {| handle := length (scheduled w); rule := r; payload := msg |}).
  set (w0 := {| ENGAGE_SCHEDULES := ENGAGE_SCHEDULES w ++ [{| id := _id msg; job := Some j |}];
                scheduled := scheduled w ++ [j];
                cancelled := cancelled w |}).
  assert (list_find (fun engage => id engage = _id msg) (ENGAGE_SCHEDULES w0)
          = Some (length (ENGAGE_SCHEDULES w), {| id := _id msg; job := Some j |})) as Hidx.
  { unfold w0; simpl. rewrite list_find_app_r by by apply list_find_None_ids.
    simpl. by rewrite decide_True. }
  rewrite (updateOrRemoveSchedule_found env' _ false w0 _ _ j Hidx eq_refl). unfold w0; simpl.
  rewrite delete_take_drop, take_app_length, drop_ge by (rewrite length_app; simpl; lia).
  by rewrite app_nil_r.
Qed.

Lemma create_then_remove_restores_registry_witness :
  updateOrRemoveSchedule (env_of []) "m2" false
    (snd (createSchedule (env_of []) (Some msg_monthly) world_weekly)) =
    (Normal tt,
     {| ENGAGE_SCHEDULES := ENGAGE_SCHEDULES world_weekly;
        scheduled := scheduled world_weekly ++
          [{| handle := 1; rule := "30 10 15 * *"; payload := msg_monthly |}];
        cancelled := [1%nat] |}).
Proof.
  apply (create_then_remove_restores_registry (env_of []) (env_of []) msg_monthly
           "30 10 15 * *" world_weekly).
  - apply (bool_decide_unpack _). vm_compute. exact I.
  - reflexivity.
  - reflexivity.
Defined.

(** When the message already has an entry that holds a job,
    [createSchedule], with a rule the runtime accepts, followed by a removal
    does not undo the registration: the removal cancels the job of the older
    entry, the first with the id, and the new entry stays. *)
Theorem create_then_remove_keeps_new_entry
    (env env' : Env) (msg : Message) (r : string) (w : World)
    (i : nat) (e : ScheduleEntry) (j : Job) :
  list_find (fun engage => id engage = _id msg) (ENGAGE_SCHEDULES w) = Some (i, e) ->
  job e = Some j ->
  createScheduleRule (clock env) (scheduleDate msg) = Normal r ->
  accepts env r = true ->
  exists before after,
    ENGAGE_SCHEDULES w = before ++ e :: after /\
    id e = _id msg /\
    updateOrRemoveSchedule env' (_id msg) false (snd (createSchedule env (Some msg) w)) =
      (Normal tt,
       {| ENGAGE_SCHEDULES :=
            before ++ after ++
            [{| id := _id msg;
                job := Some {| handle := length (scheduled w); rule := r;
                               payload := msg |} |}];
          scheduled := scheduled w ++
            [{| handle := length (scheduled w); rule := r; payload := msg |}];
          cancelled := cancelled w ++ [handle j] |}).
Proof.
  intros Hfind Hjob Hr Hacc.
  destruct (list_find_split _ _ _ _ Hfind) as (before & after & Hsplit & He & _ & Hdel).
  exists before, after. split_and!; [done..|].
  rewrite createSchedule_message, Hr, Hacc. simpl snd.
  erewrite updateOrRemoveSchedule_found; [|simpl; by apply list_find_app_l|exact Hjob].
  simpl. apply list_find_Some in Hfind as (Hi%lookup_lt_Some & _).
  rewrite delete_take_drop, take_app_le, drop_app_le by lia.
  rewrite delete_take_drop in Hdel. by rewrite app_assoc, Hdel, <- app_assoc.
Qed.

Lemma create_then_remove_keeps_new_entry_witness :
  exists before after,
    ENGAGE_SCHEDULES world_weekly =
      before ++ {| id := "m1";
                   job := Some {| handle := 0; rule := "30 10 * * 3";
                                  payload := msg_weekly |} |} :: after /\
    "m1" = "m1" /\
    updateOrRemoveSchedule (env_of []) "m1" false
      (snd (createSchedule (env_of []) (Some msg_weekly) world_weekly)) =
      (Normal tt,
       {| ENGAGE_SCHEDULES :=
            before ++ after ++
            [{| id := "m1";
                job := Some {| handle := 1; rule := "30 10 * * 3"; payload := msg_weekly |} |}];
          scheduled := scheduled world_weekly ++
            [{| handle := 1; rule := "30 10 * * 3"; payload := msg_weekly |}];
          cancelled := cancelled world_weekly ++ [0%nat] |}).
Proof.
  apply (create_then_remove_keeps_new_entry (env_of []) (env_of []) msg_weekly
           "30 10 * * 3" world_weekly 0
           {| id := "m1";
              job := Some {| handle := 0; rule := "30 10 * * 3"; payload := msg_weekly |} |}
           {| handle := 0; rule := "30 10 * * 3"; payload := msg_weekly |});
    reflexivity.
Defined.




(** A weekly message rescheduled to the 15th of every month between its
    registration and its update. *)
Lemma update_after_create_replaces_job_witness :
  updateOrRemoveSchedule (env_of [msg_rescheduled]) "m1" true
    (snd (createSchedule (env_of [msg_weekly]) (Some msg_weekly) empty_world)) =
    (Normal tt,
     {| ENGAGE_SCHEDULES :=
          [{| id := "m1";
              job := Some {| handle := 1; rule := "30 10 15 * *";
                             payload := msg_rescheduled |} |}];
        scheduled :=
          [{| handle := 0; rule := "30 10 * * 3"; payload := msg_weekly |};
           {| handle := 1; rule := "30 10 15 * *"; payload := msg_rescheduled |}];
        cancelled := [0%nat] |}).
Proof.
  apply (update_after_create_replaces_job (env_of [msg_weekly]) (env_of [msg_rescheduled])
           msg_weekly msg_rescheduled "30 10 * * 3" "30 10 15 * *" empty_world).
  - apply not_elem_of_nil.
  - reflexivity.
  - reflexivity.
  - reflexivity.
  - reflexivity.
  - reflexivity.
Defined.

(** An entry that holds [null] cannot be removed: with two such entries for
    the id in the registry, a call with [update] truthy throws and leaves
    both. *)
Lemma updateOrRemoveSchedule_null_job_witness :
  updateOrRemoveSchedule (env_of [msg_weekly]) "m1" true world_twice =
    (Throw TypeError, world_twice).
Proof.
  apply (updateOrRemoveSchedule_null_job (env_of [msg_weekly]) "m1" true world_twice
           0 {| id := "m1"; job := None |}); reflexivity.
Defined.
(** ** Concrete instances of the conditional properties of the compiler *)

Lemma null_time_gives_wildcards_witness :
  exists s,
    createScheduleRule (utc half_past_ten)
      (Some {| type := VStr "3"; month := VUndefined; day := VUndefined;
               time := TNull |}) = Normal s /\
    cron_fields s !! 0%nat = Some "*" /\ cron_fields s !! 1%nat = Some "*".
Proof.
  apply (null_time_gives_wildcards (utc half_past_ten)
    {| type := VStr "3"; month := VUndefined; day := VUndefined; time := TNull |});
    [discriminate | discriminate | reflexivity | reflexivity].
Defined.

Lemma absent_time_reads_clock_witness :
  createScheduleRule (utc half_past_ten)
    (Some {| type := VStr "3"; month := VUndefined; day := VUndefined;
             time := TUndefined |}) =
  createScheduleRule (utc half_past_ten)
    (Some {| type := VStr "3"; month := VUndefined; day := VUndefined;
             time := TDate (Some (now (utc half_past_ten))) |}).
Proof.
  apply (absent_time_reads_clock (utc half_past_ten) (VStr "3") VUndefined VUndefined).
  reflexivity.
Defined.

Lemma createScheduleRule_time_and_empty_type_witness :
  createScheduleRule (utc 0)
    (Some {| type := VStr EmptyString; month := VUndefined; day := VUndefined;
             time := TDate (Some half_past_ten) |})
  = Normal (to_string (VNum 30) +:+ " " +:+ to_string (VNum 10) +:+ " * * *").
Proof.
  apply (createScheduleRule_time_and_empty_type (utc 0) half_past_ten 10 30);
    [reflexivity | reflexivity | lia | lia].
Defined.

(** A time-only descriptor is one of the descriptors that throw. *)
Lemma createScheduleRule_throws_iff_witness :
  createScheduleRule (utc 0) (Some (time_only (Some half_past_ten))) = Throw TypeError.
Proof.
  apply (proj2 (createScheduleRule_throws_iff (utc 0)
                  (Some (time_only (Some half_past_ten))) TypeError)).
  exists (time_only (Some half_past_ten)).
  split; [reflexivity|]. split; [left; reflexivity|reflexivity].
Defined.

(** * Month activity builders: properties *)

Import MonthActivity.

(** ** The calendar *)

Lemma DayFromYear_bounds (y : Z) :
  146097 * (y - 1970) - 608 <= 400 * DayFromYear y <= 146097 * (y - 1970) + 589.
Proof. unfold DayFromYear. Z.to_euclidean_division_equations. lia. Qed.

Lemma DaysInYear_cases (y : Z) : DaysInYear y = 365 \/ DaysInYear y = 366.
Proof. unfold DaysInYear. repeat case_match; auto. Qed.

Lemma DayFromYear_succ (y : Z) : DayFromYear (y + 1) = DayFromYear y + DaysInYear y.
Proof.
  unfold DayFromYear, DaysInYear.
  destruct (Z.eqb_spec (y mod 4) 0), (Z.eqb_spec (y mod 100) 0),
    (Z.eqb_spec (y mod 400) 0); simpl; Z.to_euclidean_division_equations; lia.
Qed.

Lemma DayFromYear_mono (y1 y2 : Z) : y1 <= y2 -> DayFromYear y1 <= DayFromYear y2.
Proof. unfold DayFromYear. Z.to_euclidean_division_equations. lia. Qed.

(** [YearFromDay] meets the definition of the language: it is the largest
    year that starts on or before the day. *)
Lemma YearFromDay_spec (d : Z) :
  DayFromYear (YearFromDay d) <= d < DayFromYear (YearFromDay d + 1).
Proof.
  unfold YearFromDay. cbv zeta.
  pose proof (DayFromYear_bounds (1970 + 400 * d / 146097 - 1)).
  pose proof (DayFromYear_bounds (1970 + 400 * d / 146097 + 1 + 1)).
  pose proof (Z.div_mod (400 * d) 146097 ltac:(lia)).
  pose proof (Z.mod_pos_bound (400 * d) 146097 ltac:(lia)).
  destruct (Z.leb_spec (DayFromYear (1970 + 400 * d / 146097 + 1)) d).
  - lia.
  - destruct (Z.leb_spec (DayFromYear (1970 + 400 * d / 146097)) d).
    + lia.
    + replace (1970 + 400 * d / 146097 - 1 + 1) with (1970 + 400 * d / 146097) by lia.
      lia.
Qed.

Lemma YearFromDay_unique (y d : Z) :
  DayFromYear y <= d < DayFromYear (y + 1) -> YearFromDay d = y.
Proof.
  intros Hd. pose proof (YearFromDay_spec d) as Hs.
  destruct (Z.lt_trichotomy (YearFromDay d) y) as [Hlt | [Heq | Hgt]]; [|done|].
  - pose proof (DayFromYear_mono (YearFromDay d + 1) y). lia.
  - pose proof (DayFromYear_mono (y + 1) (YearFromDay d)). lia.
Qed.

Lemma Day_MakeDate (day : Z) : Day (MakeDate day 0) = day.
Proof. unfold Day, MakeDate, msPerDay. rewrite Z.add_0_r. by apply Z.div_mul. Qed.

Lemma month_cases (mn : Z) :
  0 <= mn <= 11 ->
  mn = 0 \/ mn = 1 \/ mn = 2 \/ mn = 3 \/ mn = 4 \/ mn = 5 \/ mn = 6 \/
  mn = 7 \/ mn = 8 \/ mn = 9 \/ mn = 10 \/ mn = 11.
Proof. lia. Qed.

Ltac each_month H :=
  apply month_cases in H;
  destruct H as [-> | [-> | [-> | [-> | [-> | [-> | [-> | [-> | [-> | [-> | [-> | ->]]]]]]]]]]].

(** The local fields of the midnight of day [dt] of month [mn] of year [y]. *)
Lemma fields_of_day (y mn dt : Z) :
  0 <= mn <= 11 -> 1 <= dt <= DaysInMonth y mn ->
  YearFromTime (MakeDate (DayFromYear y + month_start y mn + dt - 1) 0) = y /\
  MonthFromTime (MakeDate (DayFromYear y + month_start y mn + dt - 1) 0) = mn /\
  DateFromTime (MakeDate (DayFromYear y + month_start y mn + dt - 1) 0) = dt.
Proof.
  intros Hmn Hdt. set (t := MakeDate _ 0).
  assert (0 <= month_start y mn + dt - 1 < DaysInYear y) as Hk.
  { unfold month_start, DaysInMonth in *.
    destruct (DaysInYear_cases y) as [Hy | Hy]; rewrite Hy in *;
      each_month Hmn; simpl in *; lia. }
  assert (YearFromTime t = y) as Hyear.
  { unfold YearFromTime, t. rewrite Day_MakeDate. apply YearFromDay_unique.
    rewrite DayFromYear_succ. lia. }
  assert (DayWithinYear t = month_start y mn + dt - 1) as Hday.
  { unfold DayWithinYear. rewrite Hyear. unfold t. rewrite Day_MakeDate. lia. }
  split; [done|].
  unfold DateFromTime, MonthFromTime, InLeapYear. rewrite Hday, Hyear. cbv zeta.
  unfold month_start, DaysInMonth in *.
  destruct (DaysInYear_cases y) as [Hy | Hy]; rewrite Hy in *;
    each_month Hmn; simpl in *;
    repeat (match goal with
            | |- context [?a <? ?b] => destruct (Z.ltb_spec a b); try lia
            end); split; lia.
Qed.

Lemma DayFromYear_range (y : Z) :
  -200001 <= y <= 200001 -> -80000000 <= DayFromYear y <= 80000000.
Proof. intros Hy. pose proof (DayFromYear_bounds y). lia. Qed.

Lemma month_start_range (y mn : Z) : 0 <= month_start y mn <= 335.
Proof. unfold month_start. repeat case_match; lia. Qed.

Lemma MonthFromTime_range (t : Z) : 0 <= MonthFromTime t <= 11.
Proof. unfold MonthFromTime. cbv zeta. repeat case_match; lia. Qed.

(** In a regular zone, a date built at the local midnight of a day within
    the range of time values is valid and reads back as that midnight. *)
Lemma local_midnight (z : LocalZone) (day : Z) :
  regular z -> -99000000 <= day <= 99000000 ->
  exists u, TimeClip (UTC z (MakeDate day 0)) = Some u /\
            LocalTime z u = MakeDate day 0.
Proof.
  intros Hz Hday. destruct (Hz (MakeDate day 0)) as [Hoff Hsmall].
  exists (UTC z (MakeDate day 0)). split.
  - unfold TimeClip. destruct (Z.gtb_spec (Z.abs (UTC z (MakeDate day 0))) 8640000000000000)
      as [Hbig|]; [|done].
    unfold UTC, MakeDate, msPerDay in *. lia.
  - unfold LocalTime. rewrite Hoff. unfold UTC. lia.
Qed.

Lemma MakeDay_in_year (y mn dt : Z) :
  0 <= mn <= 11 -> MakeDay y mn dt = DayFromYear y + month_start y mn + dt - 1.
Proof.
  intros Hmn. unfold MakeDay. cbv zeta.
  rewrite Z.div_small, Z.mod_small, Z.add_0_r by lia. done.
Qed.

(** The day before the first of a month is the last day of the month
    before it. *)
Lemma day_before_month (y mn : Z) :
  0 <= mn <= 11 ->
  DayFromYear y + month_start y mn + 0 - 1 =
  if mn =? 0
  then DayFromYear (y - 1) + month_start (y - 1) 11 + 31 - 1
  else DayFromYear y + month_start y (mn - 1) + DaysInMonth y (mn - 1) - 1.
Proof.
  intros Hmn. destruct (Z.eqb_spec mn 0) as [-> | Hne].
  - pose proof (DayFromYear_succ (y - 1)) as Hs.
    replace (y - 1 + 1) with y in Hs by lia. rewrite Hs.
    unfold month_start. destruct (DaysInYear_cases (y - 1)) as [-> | ->]; simpl; lia.
  - unfold month_start, DaysInMonth.
    destruct (DaysInYear_cases y) as [-> | ->]; each_month Hmn; simpl; lia.
Qed.

(** [getDaysInMonth(year, month)], for a month from 0 to 11, is the number
    of days of the month before the given one: of December for month 0, of
    January for month 1, and so on. *)
Theorem getDaysInMonth_is_previous_month (z : LocalZone) (year month : Z) :
  regular z -> -200000 <= year <= 200000 -> 0 <= month <= 11 ->
  getDaysInMonth z year month =
    Some (if month =? 0 then 31
          else DaysInMonth
                 (if (0 <=? year) && (year <=? 99) then 1900 + year else year)
                 (month - 1)).
Proof.
  intros Hz Hyear Hmonth. unfold getDaysInMonth, new_Date.
  set (yr := if (0 <=? year) && (year <=? 99) then 1900 + year else year).
  assert (-200000 <= yr <= 200000) as Hyr.
  { unfold yr. destruct (_ && _) eqn:Hq; [|done].
    apply andb_prop in Hq as [H0%Z.leb_le H99%Z.leb_le]. lia. }
  rewrite MakeDay_in_year by done.
  pose proof (DayFromYear_range yr ltac:(lia)).
  pose proof (month_start_range yr month).
  destruct (local_midnight z (DayFromYear yr + month_start yr month + 0 - 1) Hz ltac:(lia))
    as (u & -> & Hu).
  simpl. unfold LocalTime in Hu. unfold LocalTime. rewrite Hu.
  rewrite day_before_month by done. f_equal.
  destruct (Z.eqb_spec month 0) as [-> | Hne].
  - by apply fields_of_day.
  - apply fields_of_day; [lia|].
    unfold DaysInMonth. repeat case_match; lia.
Qed.

Lemma getDaysInMonth_is_previous_month_witness :
  getDaysInMonth (utc_zone 0) 2017 1 = Some 31.
Proof.
  apply (getDaysInMonth_is_previous_month (utc_zone 0) 2017 1).
  - intros t. split; [reflexivity|]. simpl. unfold msPerDay. lia.
  - lia.
  - lia.
Defined.

(** ** The loop of [generateDates] *)

Section GenerateDates.

Variable z : LocalZone.
Variables endYear endMonth : Z.
Hypothesis endMonth_range : 0 <= endMonth <= 11.

Lemma loop_step (fuel : nat) (y0 m0 : Z) :
  0 <= m0 <= 11 ->
  generateDates_loop (S fuel) z endYear endMonth y0 m0 =
  if (y0 <? endYear) || ((y0 =? endYear) && (m0 <=? endMonth)) then
    month_interval z y0 m0
    :: (if m0 =? 11
        then generateDates_loop fuel z endYear endMonth (y0 + 1) 1
        else generateDates_loop fuel z endYear endMonth y0 (m0 + 1))
  else [].
Proof.
  intros Hm0. simpl. destruct (_ || _); [|done]. f_equal.
  destruct (Z.eqb_spec m0 11) as [-> | Hne]; [done|].
  destruct (Z.eqb_spec (Z.rem (m0 + 1) 12) 0) as [Hrem | Hrem]; [|done].
  rewrite Z.rem_small in Hrem by lia. lia.
Qed.

Lemma loop_continues (y0 m0 : Z) :
  (y0 <? endYear) || ((y0 =? endYear) && (m0 <=? endMonth)) = true <->
  y0 < endYear \/ (y0 = endYear /\ m0 <= endMonth).
Proof.
  rewrite orb_true_iff, andb_true_iff, Z.ltb_lt, Z.eqb_eq, Z.leb_le. done.
Qed.

Lemma loop_members (fuel : nat) (y0 m0 : Z) :
  0 <= m0 <= 11 ->
  (Z.to_nat (12 * (endYear - y0) + endMonth - m0 + 1) <= fuel)%nat ->
  forall y m,
    {| year := y; month := m |} ∈
      yearMonth <$> generateDates_loop fuel z endYear endMonth y0 m0 <->
    produced_from endYear endMonth y0 m0 y m.
Proof.
  revert y0 m0. induction fuel as [|fuel IH]; intros y0 m0 Hm0 Hfuel y m.
  - simpl. split; [by intros ?%not_elem_of_nil|]. unfold produced_from. lia.
  - rewrite loop_step by done.
    destruct ((y0 <? endYear) || ((y0 =? endYear) && (m0 <=? endMonth))) eqn:Hc.
    + apply loop_continues in Hc. rewrite fmap_cons, elem_of_cons. simpl.
      destruct (Z.eqb_spec m0 11) as [-> | Hne].
      * rewrite IH by lia. unfold produced_from.
        split; [intros [[= -> ->] | H]; lia|].
        intros H. destruct (decide (y = y0)) as [-> | Hy]; [left; f_equal|right]; lia.
      * rewrite IH by lia. unfold produced_from.
        split; [intros [[= -> ->] | H]; lia|].
        intros H. destruct (decide (y = y0 /\ m = m0)) as [[-> ->] | Hy];
          [by left|right; lia].
    + assert (~ (y0 < endYear \/ y0 = endYear /\ m0 <= endMonth)) as Hstop.
      { rewrite <- loop_continues, Hc. done. }
      simpl. split; [by intros ?%not_elem_of_nil|]. unfold produced_from. lia.
Qed.

Lemma loop_sorted (fuel : nat) (y0 m0 : Z) :
  0 <= m0 <= 11 ->
  (Z.to_nat (12 * (endYear - y0) + endMonth - m0 + 1) <= fuel)%nat ->
  StronglySorted (fun a b => 12 * year a + month a < 12 * year b + month b)
    (yearMonth <$> generateDates_loop fuel z endYear endMonth y0 m0).
Proof.
  revert y0 m0. induction fuel as [|fuel IH]; intros y0 m0 Hm0 Hfuel.
  - constructor.
  - rewrite loop_step by done.
    destruct ((y0 <? endYear) || ((y0 =? endYear) && (m0 <=? endMonth))) eqn:Hc;
      [|constructor].
    apply loop_continues in Hc. rewrite fmap_cons. simpl.
    destruct (Z.eqb_spec m0 11) as [-> | Hne]; constructor.
    + apply IH; lia.
    + apply Forall_forall. intros [y m] Hin.
      apply loop_members in Hin; [|lia..]. unfold produced_from in Hin. simpl. lia.
    + apply IH; lia.
    + apply Forall_forall. intros [y m] Hin.
      apply loop_members in Hin; [|lia..]. unfold produced_from in Hin. simpl. lia.
Qed.

(** More fuel than the bound changes nothing: the bound never cuts the loop
    short. *)
Lemma loop_fuel_enough (fuel extra : nat) (y0 m0 : Z) :
  0 <= m0 <= 11 ->
  (Z.to_nat (12 * (endYear - y0) + endMonth - m0 + 1) <= fuel)%nat ->
  generateDates_loop (fuel + extra) z endYear endMonth y0 m0 =
  generateDates_loop fuel z endYear endMonth y0 m0.
Proof.
  revert y0 m0. induction fuel as [|fuel IH]; intros y0 m0 Hm0 Hfuel.
  - destruct extra as [|extra]; [done|]. rewrite Nat.add_0_l, loop_step by done.
    destruct ((y0 <? endYear) || ((y0 =? endYear) && (m0 <=? endMonth))) eqn:Hc; [|done].
    apply loop_continues in Hc. lia.
  - rewrite Nat.add_succ_l, !loop_step by done.
    destruct (_ || _) eqn:Hc; [|done]. apply loop_continues in Hc. f_equal.
    destruct (Z.eqb_spec m0 11) as [-> | Hne]; apply IH; lia.
Qed.

Lemma loop_length (fuel : nat) (y0 m0 : Z) :
  0 <= m0 <= 11 ->
  (Z.to_nat (12 * (endYear - y0) + endMonth - m0 + 1) <= fuel)%nat ->
  Z.of_nat (length (generateDates_loop fuel z endYear endMonth y0 m0)) =
  produced_count endYear endMonth y0 m0.
Proof.
  revert y0 m0. induction fuel as [|fuel IH]; intros y0 m0 Hm0 Hfuel.
  - simpl. unfold produced_count.
    destruct (Z.ltb_spec y0 endYear), (Z.eqb_spec y0 endYear); lia.
  - rewrite loop_step by done.
    destruct ((y0 <? endYear) || ((y0 =? endYear) && (m0 <=? endMonth))) eqn:Hc.
    + apply loop_continues in Hc. rewrite length_cons, Nat2Z.inj_succ.
      destruct (Z.eqb_spec m0 11) as [-> | Hne]; rewrite IH by lia;
        unfold produced_count;
        repeat match goal with
               | |- context [?a <? ?b] => destruct (Z.ltb_spec a b)
               | |- context [?a =? ?b] => destruct (Z.eqb_spec a b)
               end; lia.
    + assert (~ (y0 < endYear \/ y0 = endYear /\ m0 <= endMonth)) as Hstop.
      { rewrite <- loop_continues, Hc. done. }
      simpl. unfold produced_count.
      destruct (Z.ltb_spec y0 endYear), (Z.eqb_spec y0 endYear); lia.
Qed.

End GenerateDates.

(** ** [generateDates] and [build] *)

(** The months [generateDates] lists are the months from January 2017 to the
    current month of the local clock, without the January of any year after
    2017: the wrap at the end of December sets the month to 0 and the loop
    header then increments it. *)
Theorem generateDates_months (z : LocalZone) (y m : Z) :
  let endYear := YearFromTime (LocalTime z (now (zone_clock z))) in
  let endMonth := MonthFromTime (LocalTime z (now (zone_clock z))) in
  {| year := y; month := m |} ∈ yearMonth <$> generateDates z <->
  2017 <= y <= endYear /\ 0 <= m <= 11 /\
  (y = endYear -> m <= endMonth) /\ (2017 < y -> 1 <= m).
Proof.
  intros endYear endMonth. unfold generateDates. fold endYear endMonth.
  pose proof (MonthFromTime_range (LocalTime z (now (zone_clock z)))) as HeM.
  fold endMonth in HeM.
  rewrite loop_members by (simpl; lia). unfold produced_from. simpl. lia.
Qed.

(** The months are listed in increasing order, each once. *)
Theorem generateDates_increasing (z : LocalZone) :
  StronglySorted (fun a b => 12 * year a + month a < 12 * year b + month b)
    (yearMonth <$> generateDates z).
Proof.
  unfold generateDates. apply loop_sorted; [apply MonthFromTime_range|simpl; lia..].
Qed.

(** The number of months listed: none before 2017, the months up to the
    current one in 2017, and afterwards twelve for 2017, eleven for each
    full year since and the number of the current month (0 in January). *)
Theorem generateDates_length (z : LocalZone) :
  let endYear := YearFromTime (LocalTime z (now (zone_clock z))) in
  let endMonth := MonthFromTime (LocalTime z (now (zone_clock z))) in
  Z.of_nat (length (generateDates z)) =
    if endYear <? 2017 then 0
    else if endYear =? 2017 then endMonth + 1
    else 12 + 11 * (endYear - 2018) + endMonth.
Proof.
  intros endYear endMonth. unfold generateDates. fold endYear endMonth.
  pose proof (MonthFromTime_range (LocalTime z (now (zone_clock z)))) as HeM.
  fold endMonth in HeM.
  change (year START_DATE) with 2017. change (month START_DATE) with 0.
  rewrite loop_length by lia. unfold produced_count.
  destruct (Z.ltb_spec 2017 endYear), (Z.eqb_spec 2017 endYear),
    (Z.ltb_spec endYear 2017), (Z.eqb_spec endYear 2017); lia.
Qed.

(** The iteration bound of [generateDates] is never reached: with any
    larger bound the loop returns the same list. *)
Lemma generateDates_bound_enough (z : LocalZone) (extra : nat) :
  let endYear := YearFromTime (LocalTime z (now (zone_clock z))) in
  let endMonth := MonthFromTime (LocalTime z (now (zone_clock z))) in
  generateDates_loop
    (Z.to_nat (12 * (endYear - 2017) + endMonth - 0 + 1) + extra)
    z endYear endMonth 2017 0 = generateDates z.
Proof.
  intros endYear endMonth. unfold generateDates.
  apply loop_fuel_enough; [apply MonthFromTime_range|simpl; lia..].
Qed.

Lemma loop_items (z : LocalZone) (endYear endMonth : Z) (fuel : nat) (y0 m0 : Z)
    (i : MonthInterval) :
  0 <= m0 <= 11 ->
  i ∈ generateDates_loop fuel z endYear endMonth y0 m0 ->
  exists y m,
    y0 <= y <= endYear /\ 0 <= m <= 11 /\ i = month_interval z y m.
Proof.
  revert y0 m0. induction fuel as [|fuel IH]; intros y0 m0 Hm0.
  - by intros ?%not_elem_of_nil.
  - rewrite loop_step by done.
    destruct ((y0 <? endYear) || ((y0 =? endYear) && (m0 <=? endMonth))) eqn:Hc;
      [|by intros ?%not_elem_of_nil].
    apply loop_continues in Hc.
    intros [-> | Hin]%elem_of_cons.
    + exists y0, m0. split_and!; [lia..|done].
    + destruct (Z.eqb_spec m0 11) as [-> | Hne];
        (apply IH in Hin as (y & m & Hy & Hm & ->); [|lia]);
        exists y, m; (split_and!; [lia..|done]).
Qed.

(** In a regular zone, every interval starts at the first day of its month
    and ends [n - 1] days later, where [n] is the number of days of the
    month before it, whatever the length of the month itself. *)
Theorem generateDates_intervals (z : LocalZone) (i : MonthInterval) :
  regular z ->
  YearFromTime (LocalTime z (now (zone_clock z))) <= 200000 ->
  i ∈ generateDates z ->
  exists ts te,
    start (interval i) = Some ts /\ end_ (interval i) = Some te /\
    YearFromTime (LocalTime z ts) = year (yearMonth i) /\
    MonthFromTime (LocalTime z ts) = month (yearMonth i) /\
    DateFromTime (LocalTime z ts) = 1 /\
    Day (LocalTime z te) - Day (LocalTime z ts) + 1 =
      if month (yearMonth i) =? 0 then 31
      else DaysInMonth (year (yearMonth i)) (month (yearMonth i) - 1).
Proof.
  intros Hz Hend Hin. unfold generateDates in Hin.
  apply loop_items in Hin as (y & m & Hy & Hm & ->); [|done]. simpl in Hy.
  unfold month_interval. simpl.
  rewrite (getDaysInMonth_is_previous_month z y m Hz) by lia.
  assert ((0 <=? y) && (y <=? 99) = false) as Hq.
  { apply andb_false_iff. right. apply Z.leb_gt. lia. }
  rewrite Hq. unfold new_Date. rewrite Hq, !MakeDay_in_year by done.
  set (n := if m =? 0 then 31 else DaysInMonth y (m - 1)).
  assert (28 <= n <= 31) as Hn.
  { unfold n, DaysInMonth. repeat case_match; lia. }
  pose proof (DayFromYear_range y ltac:(lia)).
  pose proof (month_start_range y m).
  destruct (local_midnight z (DayFromYear y + month_start y m + 1 - 1) Hz ltac:(lia))
    as (ts & -> & Hts).
  destruct (local_midnight z (DayFromYear y + month_start y m + n - 1) Hz ltac:(lia))
    as (te & -> & Hte).
  exists ts, te. rewrite Hts, Hte, !Day_MakeDate.
  destruct (fields_of_day y m 1 Hm) as (Hfy & Hfm & Hfd).
  { unfold DaysInMonth. repeat case_match; lia. }
  split_and!; [done..|lia].
Qed.

Lemma unshift_all {A B} (f : A -> B) (l : list A) (acc : list B) :
  fold_left (fun list x => f x :: list) l acc = reverse (f <$> l) ++ acc.
Proof.
  revert acc. induction l as [|x l IH]; intros acc; [done|].
  simpl. rewrite IH, reverse_cons, <- app_assoc. done.
Qed.

(** [build] lists the months of [generateDates] in reverse, the most recent
    month first, each with the [coc] and the content type of the builder. *)
Theorem build_most_recent_first {Coc} (z : LocalZone) (this : Builder Coc) :
  date <$> build z this = reverse (generateDates z) /\
  Forall (fun entry => coc entry = this_coc this /\
                       cocContentType entry = this_cocContentType this)
         (build z this).
Proof.
  unfold build. rewrite unshift_all, app_nil_r. split.
  - rewrite fmap_reverse, <- list_fmap_compose. f_equal. apply list_fmap_id.
  - apply Forall_reverse, Forall_fmap, Forall_forall. done.
Qed.

(** The interval of February 2017, listed on 15 March 2018. *)
Lemma generateDates_intervals_witness :
  exists ts te,
    start (interval (month_interval (utc_zone 1521072000000) 2017 1)) = Some ts /\
    end_ (interval (month_interval (utc_zone 1521072000000) 2017 1)) = Some te /\
    YearFromTime (LocalTime (utc_zone 1521072000000) ts) = 2017 /\
    MonthFromTime (LocalTime (utc_zone 1521072000000) ts) = 1 /\
    DateFromTime (LocalTime (utc_zone 1521072000000) ts) = 1 /\
    Day (LocalTime (utc_zone 1521072000000) te) -
      Day (LocalTime (utc_zone 1521072000000) ts) + 1 = 31.
Proof.
  apply (generateDates_intervals (utc_zone 1521072000000)
           (month_interval (utc_zone 1521072000000) 2017 1)).
  - intros t. split; [reflexivity|]. simpl. unfold msPerDay. lia.
  - vm_compute. discriminate.
  - apply list_elem_of_lookup. exists 1%nat. vm_compute. reflexivity.
Defined.

(** On 15 March 2018, February 2018 is listed and January 2018 is not. *)
Lemma generateDates_months_witness :
  {| year := 2018; month := 1 |} ∈ yearMonth <$> generateDates (utc_zone 1521072000000) /\
  {| year := 2018; month := 0 |} ∉ yearMonth <$> generateDates (utc_zone 1521072000000).
Proof.
  assert (YearFromTime (LocalTime (utc_zone 1521072000000)
            (now (zone_clock (utc_zone 1521072000000)))) = 2018) as Hy
    by (vm_compute; reflexivity).
  assert (MonthFromTime (LocalTime (utc_zone 1521072000000)
            (now (zone_clock (utc_zone 1521072000000)))) = 2) as Hm
    by (vm_compute; reflexivity).
  split.
  - apply (proj2 (generateDates_months (utc_zone 1521072000000) 2018 1)).
    rewrite Hy, Hm. lia.
  - intros Hin.
    apply (proj1 (generateDates_months (utc_zone 1521072000000) 2018 0)) in Hin.
    lia.
Defined.

